(** * seder: the V0 telemetry decoder and the CSV file writer of [server.go]

    A shallow embedding of [decodeV0], [Sample.row], [Sample.header] and
    [writeToFileV0], with the properties of the repository's specification
    stated and settled against it.

    Conventions.
    - A Go [string] is a byte string: it is modelled by [string], whose
      characters are 8-bit [ascii] values.  A [[]byte] is a [list byte].
    - Fixed-width integers are [Z] values; every place where the Go code
      wraps around is written out ([int16_wrap], [int64_wrap]).
    - [panic] is an explicit outcome of the decoder.
    - The file system is an explicit state; the environment decides which
      system calls fail. *)

From Stdlib Require Import ZArith List Strings.String Strings.Ascii Strings.Byte Bool Lia.
From Stdlib Require Import Numbers.DecimalString.
From stdpp Require Import gmap strings list.

Local Open Scope Z_scope.
Local Open Scope list_scope.

(** ** Fixed-width integers *)

Module Int.

(** Reduction of a mathematical integer to a signed [w]-bit one, as Go
    does on overflow of [intN] arithmetic. *)
Definition wrap (w : Z) (z : Z) : Z :=
  (z + 2 ^ (w - 1)) mod 2 ^ w - 2 ^ (w - 1).

Definition int16_wrap : Z -> Z := wrap 16.
Definition int64_wrap : Z -> Z := wrap 64.

Definition in_int16 (z : Z) : Prop := -32768 <= z <= 32767.

(** Little-endian value of a byte sequence ([binary.LittleEndian]). *)
Fixpoint le_uint (bs : list byte) : Z :=
  match bs with
  | [] => 0
  | b :: r => Z.of_N (Byte.to_N b) + 256 * le_uint r
  end.

(** Two's complement reading of an unsigned 16-bit value. *)
Definition to_int16 (u : Z) : Z := if u <? 32768 then u else u - 65536.

Definition le_int16 (bs : list byte) : Z := to_int16 (le_uint bs).

End Int.

(** ** [time.Time] *)

Module Time.

(** An instant, as [time.Unix] builds it: seconds since the Unix epoch
    and nanoseconds within the second. *)
Record t : Type := mk { sec : Z; nsec : Z }.

(** [time.Unix(sec, nsec)]: [nsec] outside [0, 1e9) is carried into
    [sec]; Go's [/] truncates towards zero, hence [Z.quot] and the
    correction for a negative rest. *)
Definition Unix (s n : Z) : t :=
  if (n <? 0) || (1000000000 <=? n) then
    let q := Z.quot n 1000000000 in
    let s1 := s + q in
    let n1 := n - q * 1000000000 in
    if n1 <? 0 then mk (s1 - 1) (n1 + 1000000000) else mk s1 n1
  else mk s n.

(** Nanoseconds since the epoch, as a mathematical integer. *)
Definition UnixNano (x : t) : Z := sec x * 1000000000 + nsec x.

(** *** The UTC calendar

    [t.UTC()] followed by [Year], [Month], [Day], [Hour], [Minute] and
    [Second]: the proleptic Gregorian date of the instant.  The date is
    computed from the day number by the usual era decomposition (400-year
    cycles of 146097 days, the year starting in March). *)

Definition days (x : t) : Z := sec x / 86400.
Definition secs_of_day (x : t) : Z := sec x mod 86400.

Record civil : Type := mkCivil { c_year : Z; c_month : Z; c_day : Z }.

Definition civil_of_days (d : Z) : civil :=
  let z := d + 719468 in
  let era := z / 146097 in
  let doe := z - era * 146097 in
  let yoe := (doe - doe / 1460 + doe / 36524 - doe / 146096) / 365 in
  let doy := doe - (365 * yoe + yoe / 4 - yoe / 100) in
  let mp := (5 * doy + 2) / 153 in
  let d := doy - (153 * mp + 2) / 5 + 1 in
  let m := if mp <? 10 then mp + 3 else mp - 9 in
  let y := yoe + era * 400 in
  mkCivil (if m <=? 2 then y + 1 else y) m d.

Definition Year (x : t) : Z := c_year (civil_of_days (days x)).
Definition Month (x : t) : Z := c_month (civil_of_days (days x)).
Definition Day (x : t) : Z := c_day (civil_of_days (days x)).
Definition Hour (x : t) : Z := secs_of_day x / 3600.
Definition Minute (x : t) : Z := secs_of_day x mod 3600 / 60.
Definition Second (x : t) : Z := secs_of_day x mod 60.

End Time.

(** ** The decoder *)

(** The errors [binary.Read] returns on a [bytes.Reader] that runs short:
    [io.EOF] when no byte was left, [io.ErrUnexpectedEOF] when the value
    was cut. *)
Inductive io_error : Type := EOF | ErrUnexpectedEOF.

(** The two ways [decodeV0] panics: [PanicIf] on a read error, and the
    runtime on [make] with a negative length. *)
Inductive panic : Type :=
| PanicErr (e : io_error)
| PanicMakeslice.

Inductive outcome (A : Type) : Type :=
| Ok (a : A)
| Panicked (p : panic).
Arguments Ok {A} a.
Arguments Panicked {A} p.

Record Sample : Type := mkSample {
  id : list byte;       (* [10]byte *)
  device : list byte;   (* [10]byte *)
  time : Time.t;
  per : Z;              (* int16 *)
  values : list Z       (* []int16 *)
}.

(** A computation over the [bytes.Reader] [buf]: the state is the unread
    rest of the body, and a panic ends it. *)
Definition Dec (A : Type) : Type := list byte -> outcome (A * list byte).

Definition dret {A} (a : A) : Dec A := fun r => Ok (a, r).

Definition dbind {A B} (m : Dec A) (k : A -> Dec B) : Dec B :=
  fun r => match m r with
           | Ok (a, r') => k a r'
           | Panicked p => Panicked p
           end.

Notation "'let*' x ':=' m 'in' k" := (dbind m (fun x => k))
  (at level 10, x name, m at level 100, k at level 200).

(** [io.ReadFull] of [n] bytes from the reader. *)
Definition ReadFull (n : nat) (r : list byte) : (io_error + list byte) * list byte :=
  if (n <=? length r)%nat then (inr (take n r), drop n r)
  else match r with
       | [] => (inl EOF, [])
       | _ :: _ => (inl ErrUnexpectedEOF, [])
       end.

(** [binary.Read(buf, binary.LittleEndian, &x)] for an [x] of [n] bytes,
    decoded by [conv]: the error, or the value read. *)
Definition binary_Read {A} (n : nat) (conv : list byte -> A) (r : list byte)
  : (io_error + A) * list byte :=
  match ReadFull n r with
  | (inl e, r') => (inl e, r')
  | (inr bs, r') => (inr (conv bs), r')
  end.

(** [PanicIf(err)]: panic with the error when there is one. *)
Definition PanicIf {A} (res : io_error + A) : outcome A :=
  match res with
  | inl e => Panicked (PanicErr e)
  | inr a => Ok a
  end.

(** [err = binary.Read(buf, binary.LittleEndian, &x); PanicIf(err)]. *)
Definition read_field {A} (n : nat) (conv : list byte -> A) : Dec A :=
  fun r => let (res, r') := binary_Read n conv r in
           match PanicIf res with
           | Ok a => Ok (a, r')
           | Panicked p => Panicked p
           end.

(** [make([]T, n, n)]: a negative length is a runtime panic. *)
Definition make_slice (n : Z) : Dec unit :=
  fun r => if n <? 0 then Panicked PanicMakeslice else Ok (tt, r).

(** The inner loop: [nmeas] values of type [int16]. *)
Fixpoint read_values (k : nat) : Dec (list Z) :=
  match k with
  | O => dret []
  | S k' =>
      let* i16 := read_field 2 Int.le_int16 in
      let* vs := read_values k' in
      dret (i16 :: vs)
  end.

(** [time.Unix(int64(t1), (int64(t2)+int64(per*i))*1000000)]: the product
    [per*i] is computed in [int16]. *)
Definition sample_time (t1 t2 per i : Z) : Time.t :=
  Time.Unix t1 (Int.int64_wrap ((t2 + Int.int16_wrap (per * i)) * 1000000)).

(** The outer loop, [for i = 0; i < nsamp; i++], with [k] iterations left
    and the counter at [i].  The counter stays below [nsamp <= 32767], so
    [i++] never wraps. *)
Fixpoint read_samples (id device : list byte) (t1 t2 per : Z) (nmeas : nat)
    (k : nat) (i : Z) : Dec (list Sample) :=
  match k with
  | O => dret []
  | S k' =>
      let* vs := read_values nmeas in
      let* rest := read_samples id device t1 t2 per nmeas k' (i + 1) in
      dret (mkSample id device (sample_time t1 t2 per i) per vs :: rest)
  end.

Definition decodeV0_reader : Dec (list Sample) :=
  let* id := read_field 10 (fun bs => bs) in
  let* device := read_field 10 (fun bs => bs) in
  let* t1 := read_field 4 Int.le_uint in
  let* t2 := read_field 4 Int.le_uint in
  let* per := read_field 2 Int.le_int16 in
  let* nsamp := read_field 2 Int.le_int16 in
  let* nmeas := read_field 1 Int.le_uint in
  let* _ := make_slice nsamp in
  read_samples id device t1 t2 per (Z.to_nat nmeas) (Z.to_nat nsamp) 0.

Definition decodeV0 (body : list byte) : outcome (list Sample) :=
  match decodeV0_reader body with
  | Ok (samples, _) => Ok samples
  | Panicked p => Panicked p
  end.


(** ** Formatting *)

Module Fmt.

Local Open Scope string_scope.

(** [strconv.Itoa] and [%d]: decimal digits, with a minus sign. *)
Definition Itoa (z : Z) : string :=
  DecimalString.NilZero.string_of_int (Z.to_int z).

Fixpoint zeros (n : nat) : string :=
  match n with
  | O => ""
  | S n' => String "0" (zeros n')
  end.

(** The fixed-width numbers of a [time] layout ([appendInt]): the sign
    if the number is negative, then its digits with zeros on the left up
    to [w] of them.  On the hour, which is never negative, this is also
    what [%02d] prints. *)
Definition pad (w : nat) (z : Z) : string :=
  let s := Itoa (Z.abs z) in
  (if (z <? 0)%Z then "-" else "") ++ zeros (w - String.length s)%nat ++ s.

Fixpoint drop_zeros (cs : list ascii) : list ascii :=
  match cs with
  | "0"%char :: r => drop_zeros r
  | _ => cs
  end.

(** The [.999999999] of a layout: the fraction of the second without its
    trailing zeros, and nothing at all when it is zero. *)
Definition fraction (ns : Z) : string :=
  if (ns =? 0)%Z then ""
  else "." ++ string_of_list_ascii
                (rev (drop_zeros (rev (list_ascii_of_string (pad 9 ns))))).

(** [t.Format("2006/01/02")] of a UTC time. *)
Definition date_slashes (x : Time.t) : string :=
  pad 4 (Time.Year x) ++ "/" ++ pad 2 (Time.Month x) ++ "/" ++ pad 2 (Time.Day x).

(** [t.UTC().Format(time.RFC3339Nano)]: the layout
    [2006-01-02T15:04:05.999999999Z07:00], whose zone is [Z] for UTC. *)
Definition RFC3339Nano (x : Time.t) : string :=
  pad 4 (Time.Year x) ++ "-" ++ pad 2 (Time.Month x) ++ "-" ++ pad 2 (Time.Day x)
  ++ "T" ++ pad 2 (Time.Hour x) ++ ":" ++ pad 2 (Time.Minute x) ++ ":"
  ++ pad 2 (Time.Second x) ++ fraction (Time.nsec x) ++ "Z".

(** [string(b[:])]: the bytes as they are. *)
Definition of_bytes (bs : list byte) : string := string_of_list_byte bs.

End Fmt.

(** ** [Sample.row] and [Sample.header] *)

Definition row (sample : Sample) : list string :=
  [Fmt.of_bytes (id sample); Fmt.of_bytes (device sample);
   Fmt.RFC3339Nano (time sample); Fmt.Itoa (per sample)]
  ++ map Fmt.Itoa (values sample).

Definition header (sample : Sample) : list string :=
  ["account"; "device"; "time"; "period"]%string
  ++ map (fun k => ("A" ++ Fmt.Itoa (Z.of_nat k))%string)
         (seq 0 (length (values sample))).


(** ** The file system and the environment *)

Inductive errno : Type := EACCES | ENOENT | ENOTDIR | ENOSPC | EIO | EINVAL.

(** An [*os.PathError]: the operation, the path and the cause. *)
Inductive error : Type := PathError (op path : string) (e : errno).

Inductive syscall : Type :=
| SysMkdirAll (dir : string)
| SysOpen (path : string)
| SysStat (path : string)
| SysWrite (path : string) (data : string)
| SysClose (path : string).

(** The state: the content of every regular file, and the system calls
    made so far. *)
Record World : Type := mkWorld {
  files : gmap string string;
  trace : list syscall
}.

(** The environment decides, from the state and the arguments, whether a
    system call fails.  A failing [MkdirAll] names the directory at which
    it failed, the argument or one of its parents.  A failing [write] may
    still have written the first [n] bytes of its data. *)
Record Env : Type := mkEnv {
  mkdirall_fault : World -> string -> option (string * errno);
  open_fault : World -> string -> option errno;
  stat_fault : World -> string -> option errno;
  write_fault : World -> string -> string -> option (nat * errno)
}.

Definition no_faults : Env :=
  mkEnv (fun _ _ => None) (fun _ _ => None) (fun _ _ => None) (fun _ _ _ => None).

Definition content (w : World) (path : string) : string :=
  default EmptyString (files w !! path).

Definition log (c : syscall) (w : World) : World :=
  mkWorld (files w) (trace w ++ [c]).

Definition set_content (path data : string) (w : World) : World :=
  mkWorld (<[path := data]> (files w)) (trace w).

Section Writer.

Local Open Scope string_scope.

(** The environment of the process. *)
Variable env : Env.

(** The parts of Go's library that [writeToFileV0] calls and that are
    taken as they are: the quoting of one CSV field by [encoding/csv],
    and [filepath.Join] and [filepath.Dir]. *)
Variable csv_field : string -> string.
Variable filepath_Join : list string -> string.
Variable filepath_Dir : string -> string.

(** *** [os] *)

Definition os_MkdirAll (dir : string) (w : World) : option error * World :=
  let w' := log (SysMkdirAll dir) w in
  match mkdirall_fault env w dir with
  | Some (at_dir, e) => (Some (PathError "mkdir" at_dir e), w')
  | None => (None, w')
  end.

(** [os.OpenFile(path, O_CREATE|O_APPEND|O_WRONLY, 0755)]: an absent file
    is created empty, an existing one is left as it is. *)
Definition os_OpenFile (path : string) (w : World) : option error * World :=
  let w' := log (SysOpen path) w in
  match open_fault env w path with
  | Some e => (Some (PathError "open" path e), w')
  | None =>
      match files w !! path with
      | Some _ => (None, w')
      | None => (None, set_content path "" w')
      end
  end.

(** [file.Stat()], of which only [Size()] is used. *)
Definition file_Stat (path : string) (w : World) : (error + nat) * World :=
  let w' := log (SysStat path) w in
  match stat_fault env w path with
  | Some e => (inl (PathError "stat" path e), w')
  | None => (inr (String.length (content w path)), w')
  end.

(** [n, err := file.Write(data)] on a file opened with [O_APPEND]: the
    number of bytes written, and the error when they are not all of
    [data]. *)
Definition file_Write (path data : string) (w : World)
  : (nat * option error) * World :=
  let w' := log (SysWrite path data) w in
  match write_fault env w path data with
  | Some (n, e) =>
      let n := Nat.min n (String.length data) in
      ((n, Some (PathError "write" path e)),
       set_content path (content w path ++ substring 0 n data) w')
  | None =>
      ((String.length data, None), set_content path (content w path ++ data) w')
  end.

Definition file_Close (path : string) (w : World) : World :=
  log (SysClose path) w.

(** *** [bufio.Writer]

    [csv.NewWriter(file)] wraps the file in a [bufio.Writer] of the
    default size.  [buf] holds the bytes not yet handed to the file and
    [berr] the first error of a write, which is kept from then on. *)

Definition defaultBufSize : nat := 4096.

Record bufio_Writer : Type := mkBuf { buf : string; berr : option error }.

Definition NewWriter : bufio_Writer := mkBuf "" None.

Definition bufio_Flush (path : string) (st : bufio_Writer * World)
  : option error * (bufio_Writer * World) :=
  let (b, w) := st in
  match berr b with
  | Some e => (Some e, st)
  | None =>
      if (String.length (buf b) =? 0)%nat then (None, st)
      else
        match file_Write path (buf b) w with
        | ((n, Some e), w') =>
            (Some e,
             (mkBuf (substring n (String.length (buf b) - n) (buf b)) (Some e), w'))
        | ((_, None), w') => (None, (mkBuf "" None, w'))
        end
  end.

Definition bufio_WriteByte (path : string) (c : ascii) (st : bufio_Writer * World)
  : option error * (bufio_Writer * World) :=
  let (b, w) := st in
  match berr b with
  | Some e => (Some e, st)
  | None =>
      if (defaultBufSize <=? String.length (buf b))%nat then
        match bufio_Flush path st with
        | (Some e, st') => (Some e, st')
        | (None, (b', w')) => (None, (mkBuf (buf b' ++ String c "") (berr b'), w'))
        end
      else (None, (mkBuf (buf b ++ String c "") (berr b), w))
  end.

(** The bytes of [s] through the buffer, in order, up to the first error.
    This is what [WriteString] does to the buffer and to the file, and
    what [WriteByte] and [WriteRune] of an ASCII rune (the comma, the
    quote, the newline) do for one byte: the buffer is handed to the file
    when it is full and one more byte arrives. *)
Fixpoint bufio_WriteString (path : string) (s : string) (st : bufio_Writer * World)
  : option error * (bufio_Writer * World) :=
  match s with
  | EmptyString => (berr (fst st), st)
  | String c s' =>
      match bufio_WriteByte path c st with
      | (Some e, st') => (Some e, st')
      | (None, st') => bufio_WriteString path s' st'
      end
  end.

(** *** [csv.Writer] *)

Definition LF : string := String "010"%char "".

(** The bytes of one record: the fields, each quoted as needed, separated
    by commas and ended by a newline ([UseCRLF] is false). *)
Definition csv_record (fields : list string) : string :=
  String.concat "," (map csv_field fields) ++ LF.

Definition csv_Write (path : string) (fields : list string)
    (st : bufio_Writer * World) : option error * (bufio_Writer * World) :=
  bufio_WriteString path (csv_record fields) st.

(** [writer.Flush()] returns nothing. *)
Definition csv_Flush (path : string) (st : bufio_Writer * World)
  : bufio_Writer * World :=
  snd (bufio_Flush path st).

(** *** [writeToFileV0] *)

(** Lines 199 to 201: the path, from the first sample. *)
Definition destPath (dir : string) (s0 : Sample) : string :=
  let t := time s0 in
  let fn := Fmt.pad 2 (Time.Hour t) ++ "-" ++ Fmt.of_bytes (device s0) ++ ".dat" in
  filepath_Join [dir; Fmt.of_bytes (id s0); Fmt.date_slashes t; fn].

(** [for _, v := range samples { err = writer.Write(v.row()); ... }] *)
Fixpoint write_rows (path : string) (samples : list Sample)
    (st : bufio_Writer * World) : option error * (bufio_Writer * World) :=
  match samples with
  | [] => (None, st)
  | v :: rest =>
      match csv_Write path (row v) st with
      | (Some e, st') => (Some e, st')
      | (None, st') => write_rows path rest st'
      end
  end.

Definition writeToFileV0 (samples : list Sample) (dir : string) (w : World)
  : option error * World :=
  match samples with
  | [] => (None, w)
  | s0 :: _ =>
      let path := destPath dir s0 in
      match os_MkdirAll (filepath_Dir path) w with
      | (Some e, w1) => (Some e, w1)
      | (None, w1) =>
          match os_OpenFile path w1 with
          | (Some e, w2) => (Some e, w2)
          | (None, w2) =>
              (* from here on [defer file.Close()] runs at every return *)
              match file_Stat path w2 with
              | (inl e, w3) => (Some e, file_Close path w3)
              | (inr size, w3) =>
                  let (err, st) :=
                    if (size =? 0)%nat
                    then csv_Write path (header s0) (NewWriter, w3)
                    else (None, (NewWriter, w3)) in
                  match err with
                  | Some e => (Some e, file_Close path (snd st))
                  | None =>
                      match write_rows path samples st with
                      | (Some e, st') => (Some e, file_Close path (snd st'))
                      | (None, st') =>
                          (None, file_Close path (snd (csv_Flush path st')))
                      end
                  end
              end
          end
      end
  end.

End Writer.

(** ** The handler of [POST /v0/data] *)

(** The two ways the handler panics: [PanicIf] on the error of
    [ioutil.ReadAll], and a panic of [decodeV0]. *)
Inductive handler_panic : Type :=
| PanicReadAll
| PanicDecode (p : panic).

(** What a request leaves behind: the bytes returned to the client or
    the panic, the error handed to [log.Printf("error writing samples to
    file: %s", err)] if any, and the state of the file system. *)
Record Handled : Type := mkHandled {
  reply : handler_panic + string;
  logged : option error;
  after : World
}.

Section Handler.

Variable env : Env.
Variable csv_field : string -> string.
Variable filepath_Join : list string -> string.
Variable filepath_Dir : string -> string.

(** [config.DataDir]. *)
Variable DataDir : string.

(** The bytes [!\n]. *)
Definition bang : string := String "!" LF.

(** The function given to [m.Post("/v0/data", ...)].  [req_body] is what
    [ioutil.ReadAll(req.Body)] returns: the body, or [None] for an
    error. *)
Definition post_v0_data (req_body : option (list byte)) (w : World) : Handled :=
  match req_body with
  | None => mkHandled (inl PanicReadAll) None w
  | Some body =>
      if (length body =? 0)%nat then mkHandled (inr bang) None w
      else
        match decodeV0 body with
        | Panicked p => mkHandled (inl (PanicDecode p)) None w
        | Ok samples =>
            let (err, w') :=
              writeToFileV0 env csv_field filepath_Join filepath_Dir
                samples DataDir w in
            mkHandled (inr bang) err w'
        end
  end.

End Handler.

(** ** The fields of a payload, by position

    The layout that [decodeV0] reads: account id (10 bytes), device id
    (10), [t1] (4), [t2] (4), period (2), number of samples (2), number
    of measurements (1), then the values, two bytes each.  The fixed part
    is 10+10+4+4+2+2+1 = 33 bytes long. *)

Module Hdr.

Definition size : nat := 33.

Definition field (off len : nat) (body : list byte) : list byte :=
  take len (drop off body).

Definition id (body : list byte) : list byte := field 0 10 body.
Definition device (body : list byte) : list byte := field 10 10 body.
Definition t1 (body : list byte) : Z := Int.le_uint (field 20 4 body).
Definition t2 (body : list byte) : Z := Int.le_uint (field 24 4 body).
Definition per (body : list byte) : Z := Int.le_int16 (field 28 2 body).
Definition nsamp (body : list byte) : Z := Int.le_int16 (field 30 2 body).
Definition nmeas (body : list byte) : Z := Int.le_uint (field 32 1 body).

(** The value of channel [j] of sample [i], in row-major order. *)
Definition value (body : list byte) (i j : nat) : Z :=
  Int.le_int16 (field (size + 2 * (i * Z.to_nat (nmeas body) + j)) 2 body).

(** Sample [i], as the layout gives it. *)
Definition sample (body : list byte) (i : nat) : Sample :=
  mkSample (id body) (device body)
    (sample_time (t1 body) (t2 body) (per body) (Z.of_nat i))
    (per body)
    (map (value body i) (seq 0 (Z.to_nat (nmeas body)))).

End Hdr.

(** The instant as milliseconds since the epoch that the documentation
    of the format gives for sample [i]: [t1 * 1000 + t2 + i * period]. *)
Definition documented_ms (t1 t2 per i : Z) : Z := t1 * 1000 + t2 + i * per.

(** The UTC date and time of day of an instant, down to the nanosecond. *)
Definition utc_clock (x : Time.t) : Z * Z * Z * Z * Z * Z * Z :=
  (Time.Year x, Time.Month x, Time.Day x,
   Time.Hour x, Time.Minute x, Time.Second x, Time.nsec x).

(** ** Payloads used as examples *)

Module Ex.

Definition ids : list byte := list_byte_of_string "ABCDEFGHIJaBK23o#OP@".

(** [t1] = 1394413060, [t2] = 0, period 1000, 2 samples of 2 values:
    10, 20 and 30, 40. *)
Definition two_by_two : list byte :=
  ids ++ [x04; x0e; x1d; x53] ++ [x00; x00; x00; x00] ++ [xe8; x03]
      ++ [x02; x00] ++ [x02]
      ++ [x0a; x00; x14; x00] ++ [x1e; x00; x28; x00].

(** Period 1000, 34 samples, no channel. *)
Definition thirty_four : list byte :=
  ids ++ [x04; x0e; x1d; x53] ++ [x00; x00; x00; x00] ++ [xe8; x03]
      ++ [x22; x00] ++ [x00].

(** One sample of five channels declared, and no value: 33 bytes. *)
Definition one_by_five_no_values : list byte :=
  ids ++ [x04; x0e; x1d; x53] ++ [x00; x00; x00; x00] ++ [xe8; x03]
      ++ [x01; x00] ++ [x05].

(** Two samples of five channels declared, and only two values: 37
    bytes. *)
Definition two_by_five_cut : list byte :=
  ids ++ [x04; x0e; x1d; x53] ++ [x00; x00; x00; x00] ++ [xe8; x03]
      ++ [x02; x00] ++ [x05]
      ++ [x0a; x00; x14; x00].

(** A number of samples of -1, no channel: 33 bytes. *)
Definition minus_one : list byte :=
  ids ++ [x04; x0e; x1d; x53] ++ [x00; x00; x00; x00] ++ [xe8; x03]
      ++ [xff; xff] ++ [x00].

(** The two samples that [two_by_two] holds. *)
Definition rec0 : Sample :=
  mkSample (take 10 ids) (drop 10 ids) (Time.mk 1394413060 0) 1000 [10; 20].
Definition rec1 : Sample :=
  mkSample (take 10 ids) (drop 10 ids) (Time.mk 1394413061 0) 1000 [30; 40].

(** A batch whose first sample is at 00:59:59 UTC and whose second
    sample, 2000 ms later, falls in the next hour. *)
Definition late0 : Sample :=
  mkSample (take 10 ids) (drop 10 ids) (sample_time 1394413199 0 2000 0) 2000 [1].
Definition late1 : Sample :=
  mkSample (take 10 ids) (drop 10 ids) (sample_time 1394413199 0 2000 1) 2000 [2].

(** The file of the hour 00 of 2014-03-10 of the device, under [data]. *)
Definition file00 : string :=
  "data/ABCDEFGHIJ/2014/03/10/00-aBK23o#OP@.dat".

End Ex.

(** Stand-ins for [filepath.Join] and [filepath.Dir] on elements that are
    clean already (no empty element, no [.] or [..], no separator at
    either end): the elements with a slash in between, and the path up to
    its last slash. *)
Module Path.

Local Open Scope string_scope.

Definition Join (elems : list string) : string := String.concat "/" elems.

Fixpoint has_slash (s : string) : bool :=
  match s with
  | EmptyString => false
  | String c r => Ascii.eqb c "/" || has_slash r
  end.

Fixpoint Dir (s : string) : string :=
  match s with
  | EmptyString => EmptyString
  | String c r => if has_slash r then String c (Dir r) else EmptyString
  end.

End Path.

(** ** Environments and CSV quoting used in the statements *)

(** No system call of [writeToFileV0] on the directory [dir] and the file
    [path] fails. *)
Definition no_fault_at (env : Env) (dir path : string) : Prop :=
  (forall w, mkdirall_fault env w dir = None) /\
  (forall w, open_fault env w path = None) /\
  (forall w, stat_fault env w path = None) /\
  (forall w data, write_fault env w path data = None).

(** The disk is full: every [write] fails and writes nothing. *)
Definition disk_full : Env :=
  mkEnv (fun _ _ => None) (fun _ _ => None) (fun _ _ => None)
        (fun _ _ _ => Some (O, ENOSPC)).

(** The rows of a batch, encoded one after the other. *)
Definition csv_rows (csv_field : string -> string) (samples : list Sample) : string :=
  fold_right (fun v acc => (csv_record csv_field (row v) ++ acc)%string)
             EmptyString samples.

(** The header row that a call writes: the one of the first sample when
    the file is empty, none otherwise. *)
Definition header_if_empty (csv_field : string -> string) (prior : string)
    (s0 : Sample) : string :=
  if (String.length prior =? 0)%nat
  then csv_record csv_field (header s0) else EmptyString.

(** [s1] is the beginning of [s2]. *)
Definition starts_with (s2 s1 : string) : Prop :=
  exists r, s2 = (s1 ++ r)%string.

Definition empty_world : World := mkWorld ∅ [].

(** The calls a step of the buffered writer makes are writes to the
    file. *)
Definition only_writes (path : string) (w w' : World) : Prop :=
  exists datas, trace w' = trace w ++ map (SysWrite path) datas.

(** What a step of the buffered writer has done with the bytes [pending]
    (those of the buffer and those it was given): the file has received a
    beginning [p] of them, and when the step reports no error the buffer
    holds the rest. *)
Definition wrote (path pending : string) (w : World)
    (res : option error * (bufio_Writer * World)) : Prop :=
  exists p,
    content (snd (snd res)) path = (content w path ++ p)%string /\
    starts_with pending p /\
    (fst res = None ->
     berr (fst (snd res)) = None /\
     (p ++ buf (fst (snd res)))%string = pending).

(** [w'] differs from [w] by bytes added at the end of [path] at most:
    the other files are what they were, [path] is still there if it was,
    and its content begins with the former one. *)
Definition extends (path : string) (w w' : World) : Prop :=
  (forall p, p <> path -> files w' !! p = files w !! p) /\
  (is_Some (files w !! path) -> is_Some (files w' !! path)) /\
  starts_with (content w' path) (content w path).

Module Csv.

Local Open Scope string_scope.
Local Open Scope nat_scope.

(** A character that no version of [encoding/csv] treats specially:
    printable ASCII, not a blank, and none of comma, double quote and
    backslash. *)
Definition plain_char (c : ascii) : bool :=
  let n := nat_of_ascii c in
  (33 <=? n) && (n <=? 126) && negb (n =? 44) && negb (n =? 34) && negb (n =? 92).

Fixpoint all_plain (s : string) : bool :=
  match s with
  | EmptyString => true
  | String c r => plain_char c && all_plain r
  end.

(** A field that is written as it is. *)
Definition plain (s : string) : bool :=
  match s with
  | EmptyString => false
  | String _ _ => all_plain s
  end.

Definition DQ : ascii := "034"%char.

(** [fieldNeedsQuotes] of Go 1.4 and later, for the comma: the field is
    [\.], or holds a comma, a double quote, a carriage return or a line
    feed, or begins with a rune for which [unicode.IsSpace] holds (given
    here by the UTF-8 encodings of these runes). *)
Definition special (c : ascii) : bool :=
  let n := nat_of_ascii c in
  (n =? 10) || (n =? 13) || (n =? 34) || (n =? 44).

Fixpoint has_special (s : string) : bool :=
  match s with
  | EmptyString => false
  | String c r => special c || has_special r
  end.

Definition leading_space (s : string) : bool :=
  match map nat_of_ascii (list_ascii_of_string s) with
  | a :: r =>
      ((9 <=? a) && (a <=? 13)) || (a =? 32)
      || match r with
         | b :: r' =>
             ((a =? 194) && ((b =? 133) || (b =? 160)))
             || match r' with
                | c :: _ =>
                    ((a =? 225) && (b =? 154) && (c =? 128))
                    || ((a =? 226) && (b =? 128)
                        && (((128 <=? c) && (c <=? 138))
                            || (c =? 168) || (c =? 169) || (c =? 175)))
                    || ((a =? 226) && (b =? 129) && (c =? 159))
                    || ((a =? 227) && (b =? 128) && (c =? 128))
                | [] => false
                end
         | [] => false
         end
  | [] => false
  end.

Definition fieldNeedsQuotes (f : string) : bool :=
  match f with
  | EmptyString => false
  | _ => (f =? "\.")%string || has_special f || leading_space f
  end.

(** Inside the quotes a double quote is written twice; everything else,
    newlines included, is written as it is. *)
Fixpoint escape (s : string) : string :=
  match s with
  | EmptyString => EmptyString
  | String c r =>
      if Ascii.eqb c DQ then String DQ (String DQ (escape r))
      else String c (escape r)
  end.

Definition field (f : string) : string :=
  if fieldNeedsQuotes f then String DQ (escape f ++ String DQ EmptyString) else f.

End Csv.


(** * The decoder: what [decodeV0] returns *)

Section DecoderFacts.

Lemma read_field_ok {A} (n : nat) (conv : list byte -> A) (r : list byte) :
  (n <= length r)%nat ->
  read_field n conv r = Ok (conv (take n r), drop n r).
Proof.
  intros H. unfold read_field, binary_Read, ReadFull.
  apply Nat.leb_le in H. rewrite H. reflexivity.
Qed.

Lemma read_field_short {A} (n : nat) (conv : list byte -> A) (r : list byte) :
  (length r < n)%nat ->
  exists e, read_field n conv r = Panicked (PanicErr e).
Proof.
  intros H. unfold read_field, binary_Read, ReadFull.
  apply Nat.leb_gt in H. rewrite H. destruct r; eauto.
Qed.

Lemma read_values_ok (k : nat) : forall r : list byte,
  (2 * k <= length r)%nat ->
  read_values k r =
  Ok (map (fun j => Int.le_int16 (take 2 (drop (2 * j) r))) (seq 0 k),
      drop (2 * k) r).
Proof.
  induction k as [|k IH]; intros r Hr.
  - reflexivity.
  - cbn [read_values]. unfold dbind at 1.
    rewrite read_field_ok by lia.
    unfold dbind at 1. rewrite IH by (rewrite length_drop; lia).
    unfold dret. rewrite drop_drop. cbn [seq map].
    rewrite <- seq_shift, map_map.
    f_equal. f_equal; [f_equal|f_equal; lia].
    apply map_ext. intros j. rewrite drop_drop. do 3 f_equal. lia.
Qed.

Lemma read_values_short (k : nat) : forall r : list byte,
  (length r < 2 * k)%nat ->
  exists e, read_values k r = Panicked (PanicErr e).
Proof.
  induction k as [|k IH]; intros r Hr; [lia|].
  cbn [read_values]. unfold dbind at 1.
  destruct (le_lt_dec 2 (length r)) as [Hge|Hlt].
  - rewrite read_field_ok by lia. unfold dbind at 1.
    destruct (IH (drop 2 r)) as [e He]; [rewrite length_drop; lia|].
    rewrite He. eauto.
  - destruct (read_field_short 2 Int.le_int16 r Hlt) as [e He].
    rewrite He. eauto.
Qed.

Lemma read_samples_ok (a d : list byte) (t1 t2 p : Z) (C k : nat) :
  forall (i : Z) (r : list byte),
  (2 * C * k <= length r)%nat ->
  read_samples a d t1 t2 p C k i r =
  Ok (map (fun n =>
             mkSample a d (sample_time t1 t2 p (i + Z.of_nat n)) p
               (map (fun j => Int.le_int16 (take 2 (drop (2 * (n * C + j)) r)))
                    (seq 0 C)))
          (seq 0 k),
      drop (2 * C * k) r).
Proof.
  induction k as [|k IH]; intros i r Hr.
  - cbn. unfold dret. do 2 f_equal. rewrite Nat.mul_0_r. reflexivity.
  - cbn [read_samples]. unfold dbind at 1.
    rewrite read_values_ok by lia.
    unfold dbind at 1. rewrite IH by (rewrite length_drop; lia).
    unfold dret. rewrite drop_drop. cbn [seq map].
    rewrite <- seq_shift, map_map.
    f_equal. f_equal; [|f_equal; lia].
    change (Z.of_nat 0) with 0. rewrite Z.add_0_r.
    apply f_equal. apply map_ext. intros n.
    replace (i + 1 + Z.of_nat n) with (i + Z.of_nat (S n)) by lia.
    apply f_equal. apply map_ext. intros j.
    rewrite drop_drop. do 3 f_equal. lia.
Qed.

Lemma read_samples_short (a d : list byte) (t1 t2 p : Z) (C k : nat) :
  forall (i : Z) (r : list byte),
  (length r < 2 * C * k)%nat ->
  exists e, read_samples a d t1 t2 p C k i r = Panicked (PanicErr e).
Proof.
  induction k as [|k IH]; intros i r Hr; [lia|].
  cbn [read_samples]. unfold dbind at 1.
  destruct (le_lt_dec (2 * C) (length r)) as [Hge|Hlt].
  - rewrite read_values_ok by lia. unfold dbind at 1.
    destruct (IH (i + 1) (drop (2 * C) r)) as [e He];
      [rewrite length_drop; lia|].
    rewrite He. eauto.
  - destruct (read_values_short C r Hlt) as [e He]. rewrite He. eauto.
Qed.

(** With the 33 bytes of the fixed part present, the seven reads succeed
    and hand the fields of the layout to the loops. *)
Lemma decodeV0_reader_header (body : list byte) :
  (Hdr.size <= length body)%nat ->
  decodeV0_reader body =
  (let* _ := make_slice (Hdr.nsamp body) in
   read_samples (Hdr.id body) (Hdr.device body) (Hdr.t1 body) (Hdr.t2 body)
     (Hdr.per body) (Z.to_nat (Hdr.nmeas body)) (Z.to_nat (Hdr.nsamp body)) 0)
    (drop Hdr.size body).
Proof.
  unfold Hdr.size. intros H. unfold decodeV0_reader.
  repeat (unfold dbind at 1;
          rewrite read_field_ok by (rewrite ?length_drop; lia);
          rewrite ?drop_drop; cbn [Nat.add]).
  reflexivity.
Qed.

Lemma decodeV0_ok (body : list byte) :
  0 <= Hdr.nsamp body ->
  (Hdr.size + 2 * Z.to_nat (Hdr.nmeas body) * Z.to_nat (Hdr.nsamp body)
   <= length body)%nat ->
  decodeV0 body = Ok (map (Hdr.sample body) (seq 0 (Z.to_nat (Hdr.nsamp body)))).
Proof.
  intros HN Hlen. unfold decodeV0.
  rewrite decodeV0_reader_header by lia.
  unfold dbind at 1, make_slice.
  destruct (Z.ltb_spec (Hdr.nsamp body) 0) as [?|_]; [lia|].
  rewrite read_samples_ok by (rewrite length_drop; lia).
  f_equal. apply map_ext. intros n.
  unfold Hdr.sample. rewrite Z.add_0_l. apply f_equal.
  apply map_ext. intros j.
  unfold Hdr.value, Hdr.field. rewrite drop_drop. reflexivity.
Qed.

Lemma decodeV0_values_short (body : list byte) :
  0 <= Hdr.nsamp body ->
  (Hdr.size <= length body)%nat ->
  (length body
   < Hdr.size + 2 * Z.to_nat (Hdr.nmeas body) * Z.to_nat (Hdr.nsamp body))%nat ->
  exists e, decodeV0 body = Panicked (PanicErr e).
Proof.
  intros HN H33 Hlen. unfold decodeV0.
  rewrite decodeV0_reader_header by lia.
  unfold dbind at 1, make_slice.
  destruct (Z.ltb_spec (Hdr.nsamp body) 0) as [?|_]; [lia|].
  match goal with
  | |- context [read_samples ?a ?d ?t1 ?t2 ?p ?C ?k ?i ?r] =>
      destruct (read_samples_short a d t1 t2 p C k i r) as [e He]
  end; [rewrite length_drop; lia|].
  rewrite He. eauto.
Qed.

(** A body that ends inside the fixed part makes one of the seven reads
    fail. *)
Lemma decodeV0_header_short (body : list byte) :
  (length body < Hdr.size)%nat ->
  exists e, decodeV0 body = Panicked (PanicErr e).
Proof.
  unfold Hdr.size. intros H. unfold decodeV0, decodeV0_reader.
  repeat
    (unfold dbind at 1;
     match goal with
     | |- context [read_field ?n ?conv ?r] =>
         destruct (le_lt_dec n (length r));
         [ rewrite (read_field_ok n conv r) by assumption;
           rewrite ?drop_drop; rewrite ?length_drop in *
         | destruct (read_field_short n conv r) as [? ->]; eauto ]
     end).
  exfalso. lia.
Qed.

Lemma decodeV0_negative (body : list byte) :
  (Hdr.size <= length body)%nat ->
  Hdr.nsamp body < 0 ->
  decodeV0 body = Panicked PanicMakeslice.
Proof.
  intros H33 HN. unfold decodeV0.
  rewrite decodeV0_reader_header by lia.
  unfold dbind at 1, make_slice.
  destruct (Z.ltb_spec (Hdr.nsamp body) 0) as [_|?]; [reflexivity|lia].
Qed.

Lemma le_uint_nonneg (bs : list byte) : 0 <= Int.le_uint bs.
Proof. induction bs as [|b bs IH]; cbn [Int.le_uint]; lia. Qed.

Lemma le_int16_range (bs : list byte) :
  (length bs <= 2)%nat -> Int.in_int16 (Int.le_int16 bs).
Proof.
  intros H. unfold Int.in_int16, Int.le_int16, Int.to_int16.
  destruct bs as [|a [|b [|c bs]]]; cbn [length] in H; try lia;
    cbn [Int.le_uint].
  - cbn. lia.
  - pose proof (Byte.to_N_bounded a).
    destruct (Z.ltb_spec (Z.of_N (Byte.to_N a) + 256 * 0) 32768); lia.
  - pose proof (Byte.to_N_bounded a). pose proof (Byte.to_N_bounded b).
    destruct (Z.ltb_spec
                (Z.of_N (Byte.to_N a) + 256 * (Z.of_N (Byte.to_N b) + 256 * 0))
                32768); lia.
Qed.

Lemma le_uint_bound (bs : list byte) :
  0 <= Int.le_uint bs < 256 ^ Z.of_nat (length bs).
Proof.
  induction bs as [|b bs IH].
  - cbn. lia.
  - cbn [Int.le_uint length]. rewrite Nat2Z.inj_succ, Z.pow_succ_r by lia.
    pose proof (Byte.to_N_bounded b). lia.
Qed.

Lemma le_uint32_range (bs : list byte) :
  (length bs <= 4)%nat -> 0 <= Int.le_uint bs < 2 ^ 32.
Proof.
  intros H. pose proof (le_uint_bound bs) as Hb.
  assert (256 ^ Z.of_nat (length bs) <= 256 ^ 4)
    by (apply Z.pow_le_mono_r; lia).
  change (256 ^ 4) with (2 ^ 32) in *. lia.
Qed.

(** *** Time *)

Lemma UnixNano_Unix (s n : Z) :
  Time.UnixNano (Time.Unix s n) = s * 1000000000 + n.
Proof.
  unfold Time.Unix, Time.UnixNano.
  destruct ((n <? 0) || (1000000000 <=? n)); [|reflexivity].
  destruct (_ <? 0); cbn [Time.sec Time.nsec]; lia.
Qed.

Lemma wrap_id (w z : Z) :
  0 < w -> - 2 ^ (w - 1) <= z < 2 ^ (w - 1) -> Int.wrap w z = z.
Proof.
  intros Hw Hz. unfold Int.wrap.
  replace (2 ^ w) with (2 * 2 ^ (w - 1)).
  - rewrite Z.mod_small; lia.
  - rewrite <- Z.pow_succ_r by lia. f_equal. lia.
Qed.

(** As long as the product [per * i] fits in an [int16], the instant of
    sample [i] is the documented one. *)
Lemma sample_time_documented (t1 t2 p i : Z) :
  0 <= t1 < 2 ^ 32 -> 0 <= t2 < 2 ^ 32 -> Int.in_int16 (p * i) ->
  Time.UnixNano (sample_time t1 t2 p i) = documented_ms t1 t2 p i * 1000000.
Proof.
  unfold Int.in_int16, sample_time, documented_ms. intros H1 H2 Hp.
  rewrite UnixNano_Unix.
  unfold Int.int16_wrap. rewrite (wrap_id 16) by (simpl; lia).
  unfold Int.int64_wrap. rewrite (wrap_id 64) by (simpl; lia).
  lia.
Qed.

End DecoderFacts.

(** * Properties of the decoder *)

Lemma lookup_map_seq {A} (f : nat -> A) (n i : nat) (x : A) :
  map f (seq 0 n) !! i = Some x -> (i < n)%nat /\ x = f i.
Proof.
  change (map f (seq 0 n)) with (f <$> seq 0 n).
  rewrite list_lookup_fmap. intros H.
  destruct (seq 0 n !! i) as [k|] eqn:Hk; [|discriminate].
  apply lookup_seq in Hk as [-> ?]. cbn in H. split; [lia|congruence].
Qed.

Lemma payload_length_nat (body : list byte) (h : Z) :
  0 <= Hdr.nsamp body ->
  Z.of_nat (length body) = h + Hdr.nsamp body * Hdr.nmeas body * 2 ->
  Z.of_nat (length body)
  = h + Z.of_nat (2 * Z.to_nat (Hdr.nmeas body) * Z.to_nat (Hdr.nsamp body)).
Proof.
  intros HN ->. pose proof (le_uint_nonneg (Hdr.field 32 1 body)) as HC.
  fold (Hdr.nmeas body) in HC.
  rewrite !Nat2Z.inj_mul, !Z2Nat.id by lia. change (Z.of_nat 2) with 2. lia.
Qed.

(** C2 (the code at a failing input).  With a period of 1000 ms and 34
    samples, the instant of sample 33 is 65536 ms before the documented
    [t1 * 1000 + t2 + 33 * period], and 64536 ms before the instant of
    sample 32: the product [per * i] = 33000 has wrapped around in
    [int16]. *)
Theorem decodeV0_period_times_index_wraps :
  exists samples s32 s33,
    decodeV0 Ex.thirty_four = Ok samples /\
    length samples = 34%nat /\
    samples !! 32%nat = Some s32 /\
    samples !! 33%nat = Some s33 /\
    Hdr.per Ex.thirty_four = 1000 /\
    Time.UnixNano (time s32)
    = documented_ms (Hdr.t1 Ex.thirty_four) (Hdr.t2 Ex.thirty_four) 1000 32
      * 1000000 /\
    Time.UnixNano (time s33)
    = (documented_ms (Hdr.t1 Ex.thirty_four) (Hdr.t2 Ex.thirty_four) 1000 33
       - 65536) * 1000000 /\
    Time.UnixNano (time s33) - Time.UnixNano (time s32) = -64536 * 1000000.
Proof.
  assert (E : exists l, decodeV0 Ex.thirty_four = Ok l
                        /\ l = map (Hdr.sample Ex.thirty_four) (seq 0 34)).
  { eexists. split; [apply decodeV0_ok; vm_compute; try discriminate; lia|].
    reflexivity. }
  destruct E as (l & Hl & ->).
  exists (map (Hdr.sample Ex.thirty_four) (seq 0 34)),
         (Hdr.sample Ex.thirty_four 32), (Hdr.sample Ex.thirty_four 33).
  split; [exact Hl|]. repeat split; vm_compute; reflexivity.
Qed.

(** C3 (counterexample).  A payload that declares one sample of five
    channels and is 23 + 1*5*2 = 33 bytes long carries no value at all:
    the fixed part alone takes 33 bytes, and [decodeV0] panics on the
    first value.  And with a number of samples of -1 and no channel, a
    payload of 33 + (-1)*0*2 bytes makes [make] panic. *)
Lemma decodeV0_exact_length_23_fails :
  (Z.of_nat (length Ex.one_by_five_no_values)
   = 23 + Hdr.nsamp Ex.one_by_five_no_values
          * Hdr.nmeas Ex.one_by_five_no_values * 2
   /\ decodeV0 Ex.one_by_five_no_values = Panicked (PanicErr EOF))
  /\
  (Z.of_nat (length Ex.minus_one)
   = 33 + Hdr.nsamp Ex.minus_one * Hdr.nmeas Ex.minus_one * 2
   /\ decodeV0 Ex.minus_one = Panicked PanicMakeslice).
Proof. repeat split; vm_compute; reflexivity. Qed.

(** C3 (amended).  For every payload whose header declares a number of
    samples N >= 0 and a number of channels C and that is exactly
    33 + N*C*2 bytes long, [decodeV0] returns exactly N samples, each with
    exactly C values, which are the signed 16-bit numbers of the payload
    in row-major order; N = 0 gives no sample, and C = 0 gives samples
    without values. *)
Theorem decodeV0_exact_length (body : list byte) :
  0 <= Hdr.nsamp body ->
  Z.of_nat (length body) = 33 + Hdr.nsamp body * Hdr.nmeas body * 2 ->
  exists samples,
    decodeV0 body = Ok samples /\
    Z.of_nat (length samples) = Hdr.nsamp body /\
    (forall i s, samples !! i = Some s ->
       Z.of_nat (length (values s)) = Hdr.nmeas body /\
       forall j, (j < length (values s))%nat ->
         values s !! j = Some (Hdr.value body i j) /\
         Int.in_int16 (Hdr.value body i j)) /\
    (Hdr.nsamp body = 0 -> samples = []) /\
    (Hdr.nmeas body = 0 -> forall i s, samples !! i = Some s -> values s = []).
Proof.
  intros HN Hlen.
  pose proof (le_uint_nonneg (Hdr.field 32 1 body)) as HC.
  fold (Hdr.nmeas body) in HC.
  apply payload_length_nat in Hlen; [|exact HN].
  exists (map (Hdr.sample body) (seq 0 (Z.to_nat (Hdr.nsamp body)))).
  split; [apply decodeV0_ok; unfold Hdr.size; lia|].
  split; [rewrite length_map, length_seq; lia|].
  split; [|split].
  - intros i s Hs. apply lookup_map_seq in Hs as [Hi ->].
    cbn [Hdr.sample values]. rewrite length_map, length_seq.
    split; [lia|]. intros j Hj. split.
    + change (map (Hdr.value body i) (seq 0 (Z.to_nat (Hdr.nmeas body))))
        with (Hdr.value body i <$> seq 0 (Z.to_nat (Hdr.nmeas body))).
      rewrite list_lookup_fmap, lookup_seq_lt by lia. reflexivity.
    + apply le_int16_range. unfold Hdr.field. rewrite length_take. lia.
  - intros ->. reflexivity.
  - intros HC0 i s Hs. apply lookup_map_seq in Hs as [_ ->].
    cbn [Hdr.sample values]. rewrite HC0. reflexivity.
Qed.

Lemma decodeV0_exact_length_witness :
  exists samples, decodeV0 Ex.two_by_two = Ok samples /\
                  Z.of_nat (length samples) = 2.
Proof.
  destruct (decodeV0_exact_length Ex.two_by_two) as (l & H1 & H2 & _).
  - vm_compute. discriminate.
  - vm_compute. reflexivity.
  - exists l. split; [exact H1|]. rewrite H2. vm_compute. reflexivity.
Defined.

(** C4.  A payload that ends before its declared end, inside the fixed
    part (the empty payload included) or before the 23 + N*C*2 bytes that
    the specification counts, makes [decodeV0] panic through [PanicIf]
    with the read error: no sample sequence is returned. *)
Theorem decodeV0_truncated (body : list byte) :
  (length body < Hdr.size)%nat \/
  Z.of_nat (length body) < 23 + Hdr.nsamp body * Hdr.nmeas body * 2 ->
  exists e, decodeV0 body = Panicked (PanicErr e).
Proof.
  intros H.
  destruct (le_lt_dec Hdr.size (length body)) as [H33|H33];
    [|apply decodeV0_header_short; exact H33].
  destruct H as [H|H]; [lia|]. unfold Hdr.size in H33.
  pose proof (le_uint_nonneg (Hdr.field 32 1 body)) as HC.
  fold (Hdr.nmeas body) in HC.
  assert (HN : 0 <= Hdr.nsamp body) by nia.
  apply decodeV0_values_short; [exact HN|exact H33|].
  unfold Hdr.size.
  apply Nat2Z.inj_lt. rewrite Nat2Z.inj_add, !Nat2Z.inj_mul, !Z2Nat.id by lia.
  change (Z.of_nat 33) with 33. change (Z.of_nat 2) with 2. lia.
Qed.

Lemma decodeV0_truncated_witness :
  exists e, decodeV0 Ex.two_by_five_cut = Panicked (PanicErr e).
Proof.
  apply (decodeV0_truncated Ex.two_by_five_cut).
  right. vm_compute. reflexivity.
Defined.




(** * The writer: what [writeToFileV0] does to the files *)

Module Str.

Local Open Scope string_scope.

Lemma app_cons (c : ascii) (s t : string) : String c s ++ t = String c (s ++ t).
Proof. reflexivity. Qed.

Lemma app_nil_l (s : string) : "" ++ s = s.
Proof. reflexivity. Qed.

Lemma app_nil_r (s : string) : s ++ "" = s.
Proof. induction s as [|c s IH]; [reflexivity|]. rewrite app_cons, IH. reflexivity. Qed.

Lemma app_assoc (s t u : string) : (s ++ t) ++ u = s ++ t ++ u.
Proof.
  induction s as [|c s IH]; [reflexivity|]. rewrite !app_cons, IH. reflexivity.
Qed.

Lemma length_app (s t : string) :
  String.length (s ++ t) = (String.length s + String.length t)%nat.
Proof.
  induction s as [|c s IH]; [reflexivity|].
  rewrite app_cons. cbn [String.length]. rewrite IH. reflexivity.
Qed.

Lemma length_zero (s : string) : String.length s = 0%nat -> s = "".
Proof. destruct s; [reflexivity|discriminate]. Qed.

End Str.

Section WriterFacts.

Local Open Scope string_scope.

Variable env : Env.
Variable csv_field : string -> string.
Variable filepath_Join : list string -> string.
Variable filepath_Dir : string -> string.

Lemma extends_refl (path : string) (w : World) : extends path w w.
Proof.
  split; [reflexivity|]. split; [tauto|].
  exists "". rewrite Str.app_nil_r. reflexivity.
Qed.

Lemma extends_trans (path : string) (w1 w2 w3 : World) :
  extends path w1 w2 -> extends path w2 w3 -> extends path w1 w3.
Proof.
  intros (F1 & S1 & r1 & E1) (F2 & S2 & r2 & E2). split; [|split].
  - intros p Hp. rewrite F2, F1 by exact Hp. reflexivity.
  - tauto.
  - exists (r1 ++ r2). rewrite E2, E1, Str.app_assoc. reflexivity.
Qed.

Lemma content_log (c : syscall) (w : World) (p : string) :
  content (log c w) p = content w p.
Proof. reflexivity. Qed.

Lemma content_set_same (path data : string) (w : World) :
  content (set_content path data w) path = data.
Proof. unfold content, set_content. cbn [files]. rewrite lookup_insert_eq. reflexivity. Qed.

Lemma files_set_other (path data p : string) (w : World) :
  p <> path -> files (set_content path data w) !! p = files w !! p.
Proof. intros Hp. unfold set_content. cbn [files]. apply lookup_insert_ne. congruence. Qed.

Lemma extends_log (path : string) (c : syscall) (w : World) :
  extends path w (log c w).
Proof.
  split; [reflexivity|]. split; [tauto|].
  exists "". rewrite Str.app_nil_r. reflexivity.
Qed.

Lemma extends_append (path r : string) (c : syscall) (w : World) :
  extends path w (set_content path (content w path ++ r) (log c w)).
Proof.
  split; [|split].
  - intros p Hp. rewrite files_set_other by exact Hp. reflexivity.
  - intros _. unfold set_content. cbn [files]. rewrite lookup_insert_eq. eauto.
  - exists r. rewrite content_set_same. reflexivity.
Qed.

Lemma os_MkdirAll_extends (path dir : string) (w : World) :
  extends path w (snd (os_MkdirAll env dir w)).
Proof.
  unfold os_MkdirAll.
  destruct (mkdirall_fault env w dir) as [[at_dir e]|]; apply extends_log.
Qed.

Lemma os_OpenFile_extends (path : string) (w : World) :
  extends path w (snd (os_OpenFile env path w)).
Proof.
  unfold os_OpenFile. destruct (open_fault env w path); [apply extends_log|].
  destruct (files w !! path) eqn:E; [apply extends_log|].
  replace "" with (content w path ++ "").
  - apply extends_append.
  - unfold content. rewrite E. reflexivity.
Qed.

Lemma file_Stat_extends (path : string) (w : World) :
  extends path w (snd (file_Stat env path w)).
Proof. unfold file_Stat. destruct (stat_fault env w path); apply extends_log. Qed.

Lemma file_Write_extends (path data : string) (w : World) :
  extends path w (snd (file_Write env path data w)).
Proof.
  unfold file_Write. destruct (write_fault env w path data) as [[n e]|];
    apply extends_append.
Qed.

Lemma bufio_Flush_extends (path : string) (b : bufio_Writer) (w : World) :
  extends path w (snd (snd (bufio_Flush env path (b, w)))).
Proof.
  unfold bufio_Flush. destruct (berr b); [apply extends_refl|].
  destruct (String.length (buf b) =? 0)%nat; [apply extends_refl|].
  pose proof (file_Write_extends path (buf b) w) as H.
  destruct (file_Write env path (buf b) w) as [[n [e|]] w']; exact H.
Qed.

Lemma bufio_WriteByte_extends (path : string) (c : ascii)
    (b : bufio_Writer) (w : World) :
  extends path w (snd (snd (bufio_WriteByte env path c (b, w)))).
Proof.
  unfold bufio_WriteByte. destruct (berr b); [apply extends_refl|].
  destruct (defaultBufSize <=? String.length (buf b))%nat; [|apply extends_refl].
  pose proof (bufio_Flush_extends path b w) as H.
  destruct (bufio_Flush env path (b, w)) as [[e|] [b' w']]; exact H.
Qed.

Lemma bufio_WriteString_extends (path s : string) :
  forall (b : bufio_Writer) (w : World),
  extends path w (snd (snd (bufio_WriteString env path s (b, w)))).
Proof.
  induction s as [|c s IH]; intros b w; [apply extends_refl|].
  cbn [bufio_WriteString].
  pose proof (bufio_WriteByte_extends path c b w) as H.
  destruct (bufio_WriteByte env path c (b, w)) as [[e|] [b' w']]; [exact H|].
  eapply extends_trans; [exact H|apply IH].
Qed.

Lemma write_rows_extends (path : string) (samples : list Sample) :
  forall (b : bufio_Writer) (w : World),
  extends path w (snd (snd (write_rows env csv_field path samples (b, w)))).
Proof.
  induction samples as [|v rest IH]; intros b w; [apply extends_refl|].
  cbn [write_rows]. unfold csv_Write.
  pose proof (bufio_WriteString_extends path (csv_record csv_field (row v)) b w) as H.
  destruct (bufio_WriteString env path _ (b, w)) as [[e|] [b' w']]; [exact H|].
  eapply extends_trans; [exact H|apply IH].
Qed.

(** Whatever the environment does, a call touches no other file than
    the one of its first sample, and only adds to that one. *)
Lemma writeToFileV0_extends (s0 : Sample) (rest : list Sample) (dir : string)
    (w : World) :
  extends (destPath filepath_Join dir s0) w
    (snd (writeToFileV0 env csv_field filepath_Join filepath_Dir
            (s0 :: rest) dir w)).
Proof.
  unfold writeToFileV0.
  set (path := destPath filepath_Join dir s0).
  pose proof (os_MkdirAll_extends path (filepath_Dir path) w) as H1.
  destruct (os_MkdirAll env (filepath_Dir path) w) as [[e|] w1]; [exact H1|].
  cbn [snd] in H1.
  pose proof (os_OpenFile_extends path w1) as H2.
  destruct (os_OpenFile env path w1) as [[e|] w2];
    [eapply extends_trans; [exact H1|exact H2]|].
  cbn [snd] in H2.
  assert (H12 : extends path w w2) by (eapply extends_trans; eassumption).
  clear H1 H2.
  pose proof (file_Stat_extends path w2) as H3.
  destruct (file_Stat env path w2) as [[e|size] w3]; cbn [snd] in *.
  { eapply extends_trans; [exact H12|].
    eapply extends_trans; [exact H3|apply extends_log]. }
  assert (H13 : extends path w w3) by (eapply extends_trans; eassumption).
  clear H12 H3.
  assert (H4 : extends path w3
            (snd (snd (if (size =? 0)%nat
                       then csv_Write env csv_field path (header s0) (NewWriter, w3)
                       else (None, (NewWriter, w3)))))).
  { destruct (size =? 0)%nat; [|apply extends_refl].
    apply bufio_WriteString_extends. }
  destruct (if (size =? 0)%nat then _ else _) as [err [b4 w4]].
  cbn [snd] in H4.
  assert (H14 : extends path w w4) by (eapply extends_trans; eassumption).
  clear H13 H4.
  destruct err as [e|]; cbn [snd].
  { eapply extends_trans; [exact H14|apply extends_log]. }
  pose proof (write_rows_extends path (s0 :: rest) b4 w4) as H5.
  destruct (write_rows env csv_field path (s0 :: rest) (b4, w4))
    as [[e|] [b5 w5]]; cbn [snd] in *.
  { eapply extends_trans; [exact H14|].
    eapply extends_trans; [exact H5|apply extends_log]. }
  pose proof (bufio_Flush_extends path b5 w5) as H6.
  unfold csv_Flush.
  eapply extends_trans; [exact H14|].
  eapply extends_trans; [exact H5|].
  eapply extends_trans; [exact H6|apply extends_log].
Qed.

Lemma lookup_content (path data : string) (w : World) :
  is_Some (files w !! path) -> content w path = data ->
  files w !! path = Some data.
Proof. unfold content. intros [x ->]. cbn. congruence. Qed.

(** *** When no write fails *)

Section NoWriteFault.

Variable path : string.
Hypothesis write_ok : forall w data, write_fault env w path data = None.

Lemma bufio_Flush_ok (b : bufio_Writer) (w : World) :
  berr b = None ->
  exists w',
    bufio_Flush env path (b, w) = (None, (mkBuf "" None, w')) /\
    content w' path = content w path ++ buf b /\
    extends path w w'.
Proof.
  intros Hb. pose proof (bufio_Flush_extends path b w) as Hext.
  unfold bufio_Flush in *. rewrite Hb in *.
  destruct (String.length (buf b) =? 0)%nat eqn:E.
  - apply Nat.eqb_eq, Str.length_zero in E. exists w.
    destruct b as [bb be]; cbn in *; subst.
    rewrite Str.app_nil_r. auto.
  - unfold file_Write in *. rewrite write_ok in *. cbn [snd] in Hext.
    eexists. split; [reflexivity|]. split; [|exact Hext].
    apply content_set_same.
Qed.

Lemma bufio_WriteByte_ok (c : ascii) (b : bufio_Writer) (w : World) :
  berr b = None ->
  exists b' w',
    bufio_WriteByte env path c (b, w) = (None, (b', w')) /\
    berr b' = None /\
    content w' path ++ buf b' = content w path ++ buf b ++ String c "" /\
    extends path w w'.
Proof.
  intros Hb. unfold bufio_WriteByte. rewrite Hb.
  destruct (defaultBufSize <=? String.length (buf b))%nat.
  - destruct (bufio_Flush_ok b w Hb) as (w' & -> & Hc & Hext).
    exists (mkBuf ("" ++ String c "") None), w'.
    cbn [buf berr]. rewrite Hc, Str.app_assoc. auto.
  - exists (mkBuf (buf b ++ String c "") None), w.
    cbn [buf berr]. auto using extends_refl.
Qed.

Lemma bufio_WriteString_ok (s : string) :
  forall (b : bufio_Writer) (w : World),
  berr b = None ->
  exists b' w',
    bufio_WriteString env path s (b, w) = (None, (b', w')) /\
    berr b' = None /\
    content w' path ++ buf b' = content w path ++ buf b ++ s /\
    extends path w w'.
Proof.
  induction s as [|c s IH]; intros b w Hb.
  - exists b, w. cbn [bufio_WriteString fst]. rewrite Hb, Str.app_nil_r.
    auto using extends_refl.
  - cbn [bufio_WriteString].
    destruct (bufio_WriteByte_ok c b w Hb) as (b1 & w1 & -> & Hb1 & Hc1 & He1).
    destruct (IH b1 w1 Hb1) as (b2 & w2 & -> & Hb2 & Hc2 & He2).
    exists b2, w2. split; [reflexivity|]. split; [exact Hb2|].
    split; [|eapply extends_trans; eassumption].
    rewrite Hc2, <- Str.app_assoc, Hc1, !Str.app_assoc. reflexivity.
Qed.

Lemma write_rows_ok (samples : list Sample) :
  forall (b : bufio_Writer) (w : World),
  berr b = None ->
  exists b' w',
    write_rows env csv_field path samples (b, w) = (None, (b', w')) /\
    berr b' = None /\
    content w' path ++ buf b' =
      content w path ++ buf b ++ csv_rows csv_field samples /\
    extends path w w'.
Proof.
  induction samples as [|v rest IH]; intros b w Hb.
  - exists b, w. cbn [write_rows csv_rows fold_right].
    rewrite Str.app_nil_r. auto using extends_refl.
  - cbn [write_rows]. unfold csv_Write.
    destruct (bufio_WriteString_ok (csv_record csv_field (row v)) b w Hb)
      as (b1 & w1 & -> & Hb1 & Hc1 & He1).
    destruct (IH b1 w1 Hb1) as (b2 & w2 & -> & Hb2 & Hc2 & He2).
    exists b2, w2. split; [reflexivity|]. split; [exact Hb2|].
    split; [|eapply extends_trans; eassumption].
    rewrite Hc2, <- Str.app_assoc, Hc1, !Str.app_assoc. reflexivity.
Qed.

End NoWriteFault.

(** *** While the buffer does not fill up

    Up to [defaultBufSize] bytes, nothing reaches the file before
    [Flush], whatever the environment. *)

Lemma bufio_WriteString_small (path s : string) :
  forall (b : bufio_Writer) (w : World),
  berr b = None ->
  (String.length (buf b) + String.length s <= defaultBufSize)%nat ->
  bufio_WriteString env path s (b, w) = (None, (mkBuf (buf b ++ s) None, w)).
Proof.
  induction s as [|c s IH]; intros b w Hb Hlen.
  - destruct b as [bb be]. cbn in *. subst. rewrite Str.app_nil_r. reflexivity.
  - cbn [bufio_WriteString String.length] in *.
    unfold bufio_WriteByte. rewrite Hb.
    destruct (Nat.leb_spec defaultBufSize (String.length (buf b))); [lia|].
    rewrite IH; cbn [buf berr].
    + rewrite Str.app_assoc. reflexivity.
    + reflexivity.
    + rewrite Str.length_app. cbn [String.length]. lia.
Qed.

Lemma write_rows_small (path : string) (samples : list Sample) :
  forall (b : bufio_Writer) (w : World),
  berr b = None ->
  (String.length (buf b) + String.length (csv_rows csv_field samples)
   <= defaultBufSize)%nat ->
  write_rows env csv_field path samples (b, w)
  = (None, (mkBuf (buf b ++ csv_rows csv_field samples) None, w)).
Proof.
  induction samples as [|v rest IH]; intros b w Hb Hlen.
  - destruct b as [bb be]. cbn in *. subst. rewrite Str.app_nil_r. reflexivity.
  - change (csv_rows csv_field (v :: rest))
      with (csv_record csv_field (row v) ++ csv_rows csv_field rest) in *.
    cbn [write_rows]. unfold csv_Write.
    rewrite Str.length_app in Hlen.
    rewrite bufio_WriteString_small by (assumption || lia).
    rewrite IH; cbn [buf berr].
    + rewrite Str.app_assoc. reflexivity.
    + reflexivity.
    + rewrite Str.length_app. lia.
Qed.

(** *** A call in which no system call fails *)

Lemma os_OpenFile_ok (path : string) (w : World) :
  open_fault env w path = None ->
  exists w',
    os_OpenFile env path w = (None, w') /\
    is_Some (files w' !! path) /\
    content w' path = content w path /\
    extends path w w'.
Proof.
  intros Ho. pose proof (os_OpenFile_extends path w) as Hext.
  unfold os_OpenFile in *. rewrite Ho in *.
  destruct (files w !! path) as [x|] eqn:E; cbn [snd] in Hext.
  - eexists. split; [reflexivity|]. split; [|split; [reflexivity|exact Hext]].
    cbn [log files]. rewrite E. eauto.
  - eexists. split; [reflexivity|]. split; [|split; [|exact Hext]].
    + unfold set_content. cbn [files]. rewrite lookup_insert_eq. eauto.
    + rewrite content_set_same. unfold content. rewrite E. reflexivity.
Qed.

Lemma writeToFileV0_ok (s0 : Sample) (rest : list Sample) (dir : string)
    (w : World) :
  let path := destPath filepath_Join dir s0 in
  no_fault_at env (filepath_Dir path) path ->
  exists w',
    writeToFileV0 env csv_field filepath_Join filepath_Dir (s0 :: rest) dir w
    = (None, w') /\
    files w' !! path
    = Some (content w path ++ header_if_empty csv_field (content w path) s0
            ++ csv_rows csv_field (s0 :: rest)) /\
    extends path w w'.
Proof.
  intros path (Hm & Ho & Hs & Hw).
  pose proof (writeToFileV0_extends s0 rest dir w) as Hext.
  fold path in Hext. unfold writeToFileV0 in *. fold path in Hext |- *.
  unfold os_MkdirAll in *. rewrite Hm in *.
  set (w1 := log (SysMkdirAll (filepath_Dir path)) w) in *.
  destruct (os_OpenFile_ok path w1 (Ho w1)) as (w2 & E2 & Hex2 & Hc2 & He2).
  rewrite E2 in *.
  change (content w1 path) with (content w path) in Hc2.
  unfold file_Stat in *. rewrite Hs in *.
  set (w3 := log (SysStat path) w2) in *.
  assert (Hc3 : content w3 path = content w path) by exact Hc2.
  assert (Hex3 : is_Some (files w3 !! path)) by exact Hex2.
  assert (H4 : exists b4 w4,
             (if (String.length (content w2 path) =? 0)%nat
              then csv_Write env csv_field path (header s0) (NewWriter, w3)
              else (None, (NewWriter, w3))) = (None, (b4, w4)) /\
             berr b4 = None /\
             content w4 path ++ buf b4
             = content w path ++ header_if_empty csv_field (content w path) s0 /\
             extends path w3 w4).
  { unfold header_if_empty. rewrite <- Hc2.
    destruct (String.length (content w2 path) =? 0)%nat.
    - unfold csv_Write.
      destruct (bufio_WriteString_ok path Hw (csv_record csv_field (header s0))
                  NewWriter w3 eq_refl) as (b4 & w4 & -> & Hb4 & Hc4 & He4).
      exists b4, w4. rewrite Hc4. cbn [NewWriter buf]. auto.
    - exists NewWriter, w3. cbn [NewWriter buf berr].
      auto using extends_refl. }
  destruct H4 as (b4 & w4 & E4 & Hb4 & Hc4 & He4). rewrite E4 in *.
  destruct (write_rows_ok path Hw (s0 :: rest) b4 w4 Hb4)
    as (b5 & w5 & E5 & Hb5 & Hc5 & He5).
  rewrite E5 in *.
  destruct (bufio_Flush_ok path Hw b5 w5 Hb5) as (w6 & E6 & Hc6 & He6).
  unfold csv_Flush in *. rewrite E6 in *. cbn [snd] in *.
  eexists. split; [reflexivity|]. split; [|exact Hext].
  apply lookup_content.
  - cbn [file_Close log files].
    apply He6, He5, He4. exact Hex3.
  - unfold file_Close.
    rewrite content_log, Hc6, Hc5, <- Str.app_assoc, Hc4, Str.app_assoc.
    reflexivity.
Qed.

(** *** A call whose output fits in the buffer

    When the directory, the file and its size are obtained, and the
    header row and the rows take no more than [defaultBufSize] bytes,
    the one write to the file is that of the final [Flush], and the
    result of the call is [nil] whatever that write does. *)
Lemma writeToFileV0_buffered (s0 : Sample) (rest : list Sample) (dir : string)
    (w : World) :
  let path := destPath filepath_Join dir s0 in
  let w1 := log (SysMkdirAll (filepath_Dir path)) w in
  let w2 := snd (os_OpenFile env path w1) in
  let out := header_if_empty csv_field (content w path) s0
             ++ csv_rows csv_field (s0 :: rest) in
  mkdirall_fault env w (filepath_Dir path) = None ->
  open_fault env w1 path = None ->
  stat_fault env w2 path = None ->
  (String.length out <= defaultBufSize)%nat ->
  writeToFileV0 env csv_field filepath_Join filepath_Dir (s0 :: rest) dir w
  = (None,
     file_Close path
       (snd (csv_Flush env path (mkBuf out None, log (SysStat path) w2)))).
Proof.
  intros path w1 w2 out Hm Ho Hs Hlen.
  unfold writeToFileV0. fold path.
  unfold os_MkdirAll. rewrite Hm. fold w1.
  destruct (os_OpenFile_ok path w1 Ho) as (w2' & E2 & _ & Hc2 & _).
  assert (w2 = w2') as <- by (unfold w2; rewrite E2; reflexivity).
  rewrite E2. change (content w1 path) with (content w path) in Hc2.
  unfold file_Stat. rewrite Hs.
  unfold out, header_if_empty in *. rewrite <- Hc2 in *.
  destruct (String.length (content w2 path) =? 0)%nat.
  - rewrite Str.length_app in Hlen. unfold csv_Write, NewWriter.
    rewrite bufio_WriteString_small;
      [|reflexivity|cbn [buf String.length Nat.add]; lia].
    cbn [buf]. rewrite Str.app_nil_l.
    rewrite write_rows_small; [|reflexivity|cbn [buf]; exact Hlen].
    reflexivity.
  - unfold NewWriter.
    rewrite write_rows_small; [|reflexivity|cbn [buf]; exact Hlen].
    reflexivity.
Qed.

End WriterFacts.

(** * Properties of the writer *)

Lemma csv_record_nonempty (csv_field : string -> string) (fields : list string) :
  String.length (csv_record csv_field fields) <> 0%nat.
Proof. unfold csv_record. rewrite Str.length_app. cbn. lia. Qed.

Lemma csv_record_plain (csv_field : string -> string) (fields : list string) :
  (forall f, Csv.plain f = true -> csv_field f = f) ->
  forallb Csv.plain fields = true ->
  csv_record csv_field fields = csv_record (fun f => f) fields.
Proof.
  intros Hp Hall. unfold csv_record. do 2 f_equal.
  induction fields as [|f fields IH]; [reflexivity|].
  cbn [forallb] in Hall. apply andb_true_iff in Hall as [Hf Hall].
  cbn [map]. rewrite Hp, IH by assumption. reflexivity.
Qed.

Lemma no_faults_at (dir path : string) : no_fault_at no_faults dir path.
Proof. repeat split. Qed.

(** C8.  With an empty batch, [writeToFileV0] returns [nil] and leaves the
    state as it is: no file changes and no system call is made, in any
    environment. *)
Theorem writeToFileV0_empty (env : Env) (csv_field : string -> string)
    (Join : list string -> string) (Dir : string -> string)
    (dir : string) (w : World) :
  writeToFileV0 env csv_field Join Dir [] dir w = (None, w).
Proof. reflexivity. Qed.

(** C7.  A call on a file that exists and is not empty keeps what the
    file holds: in any environment the content afterwards begins with the
    prior content, and when no system call fails it is the prior content
    followed by the encoded rows of the batch (no header row), so that the
    size has grown by the size of these rows. *)
Theorem writeToFileV0_appends (env : Env) (csv_field : string -> string)
    (Join : list string -> string) (Dir : string -> string)
    (s0 : Sample) (rest : list Sample) (dir prior : string) (w : World) :
  let path := destPath Join dir s0 in
  let result := writeToFileV0 env csv_field Join Dir (s0 :: rest) dir w in
  files w !! path = Some prior ->
  prior <> EmptyString ->
  (exists added, files (snd result) !! path = Some (prior ++ added)%string) /\
  (no_fault_at env (Dir path) path ->
   fst result = None /\
   files (snd result) !! path
   = Some (prior ++ csv_rows csv_field (s0 :: rest))%string /\
   String.length (content (snd result) path)
   = (String.length prior
      + String.length (csv_rows csv_field (s0 :: rest)))%nat).
Proof.
  intros path result Hprior Hne.
  assert (Hc : content w path = prior) by (unfold content; rewrite Hprior; reflexivity).
  split.
  - destruct (writeToFileV0_extends env csv_field Join Dir s0 rest dir w)
      as (_ & Hex & added & Hadd).
    fold path result in Hex, Hadd. exists added.
    apply lookup_content; [apply Hex; rewrite Hprior; eauto|].
    rewrite Hadd, Hc. reflexivity.
  - intros Hnf.
    destruct (writeToFileV0_ok env csv_field Join Dir s0 rest dir w Hnf)
      as (w' & E & Hf & _).
    fold path result in E, Hf. rewrite E. cbn [fst snd].
    unfold header_if_empty in Hf. rewrite Hc in Hf.
    destruct (String.length prior =? 0)%nat eqn:E0.
    { apply Nat.eqb_eq, Str.length_zero in E0. contradiction. }
    split; [reflexivity|]. split; [exact Hf|].
    unfold content. rewrite Hf. cbn. apply Str.length_app.
Qed.

Lemma writeToFileV0_appends_witness :
  files (snd (writeToFileV0 no_faults Csv.field Path.Join Path.Dir
                [Ex.rec0; Ex.rec1] "data"
                (mkWorld {[ Ex.file00 := "old"%string ]} [])))
    !! Ex.file00
  = Some ("old" ++ csv_rows Csv.field [Ex.rec0; Ex.rec1])%string.
Proof.
  apply (writeToFileV0_appends no_faults Csv.field Path.Join Path.Dir
           Ex.rec0 [Ex.rec1] "data" "old"
           (mkWorld {[ Ex.file00 := "old"%string ]} [])).
  - apply lookup_singleton_eq.
  - discriminate.
  - apply no_faults_at.
Defined.

(** C5.  The header row is written exactly when the file is empty before
    the call: when no system call fails, an empty (or new) file receives
    the header row of the first sample and then the rows, and a file
    that is not empty receives the rows alone.  Hence two batches
    written one after the other to a new path leave a file with one
    header row at the top, followed by the rows of both batches in
    order.  The header is [account, device, time, period, A0, ...,
    A(C-1)] for the C values of the first sample. *)
Theorem writeToFileV0_header_once (env : Env) (csv_field : string -> string)
    (Join : list string -> string) (Dir : string -> string)
    (s1 : Sample) (r1 : list Sample) (s2 : Sample) (r2 : list Sample)
    (dir : string) (w : World) :
  let path := destPath Join dir s1 in
  let append := writeToFileV0 env csv_field Join Dir in
  no_fault_at env (Dir path) path ->
  destPath Join dir s2 = path ->
  header s1
  = ["account"; "device"; "time"; "period"]%string
    ++ map (fun k => ("A" ++ Fmt.Itoa (Z.of_nat k))%string)
           (seq 0 (length (values s1))) /\
  (exists w1,
     append (s1 :: r1) dir w = (None, w1) /\
     (String.length (content w path) = 0%nat ->
      files w1 !! path
      = Some (csv_record csv_field (header s1)
              ++ csv_rows csv_field (s1 :: r1))%string) /\
     (String.length (content w path) <> 0%nat ->
      files w1 !! path
      = Some (content w path ++ csv_rows csv_field (s1 :: r1))%string)) /\
  (files w !! path = None ->
   exists w1 w2,
     append (s1 :: r1) dir w = (None, w1) /\
     append (s2 :: r2) dir w1 = (None, w2) /\
     files w2 !! path
     = Some (csv_record csv_field (header s1)
             ++ csv_rows csv_field (s1 :: r1)
             ++ csv_rows csv_field (s2 :: r2))%string).
Proof.
  intros path append Hnf Hsame.
  split; [reflexivity|].
  destruct (writeToFileV0_ok env csv_field Join Dir s1 r1 dir w Hnf)
    as (w1 & E1 & Hf1 & _).
  fold path in Hf1. fold append in E1. unfold header_if_empty in Hf1.
  split.
  - exists w1. split; [exact E1|]. split; intros Hlen.
    + rewrite Hf1. apply Str.length_zero in Hlen. rewrite Hlen. reflexivity.
    + rewrite Hf1. apply Nat.eqb_neq in Hlen. rewrite Hlen. reflexivity.
  - intros Hnew.
    assert (Hc : content w path = EmptyString)
      by (unfold content; rewrite Hnew; reflexivity).
    rewrite Hc in Hf1. cbn [String.length Nat.eqb] in Hf1.
    rewrite Str.app_nil_l in Hf1.
    assert (Hnf2 : no_fault_at env (Dir (destPath Join dir s2))
                     (destPath Join dir s2)) by (rewrite Hsame; exact Hnf).
    destruct (writeToFileV0_ok env csv_field Join Dir s2 r2 dir w1 Hnf2)
      as (w2 & E2 & Hf2 & _).
    rewrite Hsame in Hf2. fold append in E2.
    exists w1, w2. split; [exact E1|]. split; [exact E2|].
    assert (Hc1 : content w1 path
                  = (csv_record csv_field (header s1)
                     ++ csv_rows csv_field (s1 :: r1))%string)
      by (unfold content; rewrite Hf1; reflexivity).
    rewrite Hf2. unfold header_if_empty. rewrite Hc1, Str.length_app.
    destruct (String.length (csv_record csv_field (header s1))) eqn:E0;
      [apply csv_record_nonempty in E0; contradiction|].
    cbn [Nat.add Nat.eqb]. rewrite Str.app_nil_l, Str.app_assoc. reflexivity.
Qed.

Lemma writeToFileV0_header_once_witness :
  exists w1 w2,
    writeToFileV0 no_faults Csv.field Path.Join Path.Dir
      [Ex.rec0] "data" empty_world = (None, w1) /\
    writeToFileV0 no_faults Csv.field Path.Join Path.Dir
      [Ex.rec1] "data" w1 = (None, w2) /\
    files w2 !! Ex.file00
    = Some (csv_record Csv.field (header Ex.rec0)
            ++ csv_rows Csv.field [Ex.rec0] ++ csv_rows Csv.field [Ex.rec1])%string.
Proof.
  apply (writeToFileV0_header_once no_faults Csv.field Path.Join Path.Dir
           Ex.rec0 [] Ex.rec1 [] "data" empty_world).
  - apply no_faults_at.
  - reflexivity.
  - apply lookup_empty.
Defined.

(** C6.  The path is computed from the first sample alone, as
    [Join(dir, account, "YYYY/MM/DD", "HH-<device>.dat")] with the UTC
    year, month, day and hour of its time.  Two first samples with the
    same account, device, year, month, day and hour give the same path,
    whatever their other fields.  A call changes no other file than this
    one, and when no system call fails the rows of the whole batch are at
    its end, also the rows of samples of a later hour. *)
Theorem destPath_first_sample (env : Env) (csv_field : string -> string)
    (Join : list string -> string) (Dir : string -> string) (dir : string) :
  (forall s0,
     destPath Join dir s0
     = Join [dir; Fmt.of_bytes (id s0);
             (Fmt.pad 4 (Time.Year (time s0)) ++ "/"
              ++ Fmt.pad 2 (Time.Month (time s0)) ++ "/"
              ++ Fmt.pad 2 (Time.Day (time s0)))%string;
             (Fmt.pad 2 (Time.Hour (time s0)) ++ "-"
              ++ Fmt.of_bytes (device s0) ++ ".dat")%string]) /\
  (forall s s',
     id s = id s' -> device s = device s' ->
     Time.Year (time s) = Time.Year (time s') ->
     Time.Month (time s) = Time.Month (time s') ->
     Time.Day (time s) = Time.Day (time s') ->
     Time.Hour (time s) = Time.Hour (time s') ->
     destPath Join dir s = destPath Join dir s') /\
  (forall s0 rest w,
     let path := destPath Join dir s0 in
     let w' := snd (writeToFileV0 env csv_field Join Dir (s0 :: rest) dir w) in
     (forall p, p <> path -> files w' !! p = files w !! p) /\
     (no_fault_at env (Dir path) path ->
      files w' !! path
      = Some (content w path ++ header_if_empty csv_field (content w path) s0
              ++ csv_rows csv_field (s0 :: rest))%string)).
Proof.
  split; [reflexivity|]. split.
  - intros s s' Hid Hdev Hy Hm Hd Hh.
    unfold destPath, Fmt.date_slashes. rewrite Hid, Hdev, Hy, Hm, Hd, Hh.
    reflexivity.
  - intros s0 rest w path w'. split.
    + apply (writeToFileV0_extends env csv_field Join Dir s0 rest dir w).
    + intros Hnf.
      destruct (writeToFileV0_ok env csv_field Join Dir s0 rest dir w Hnf)
        as (w1 & E & Hf & _).
      unfold w'. rewrite E. exact Hf.
Qed.

Lemma destPath_first_sample_witness :
  destPath Path.Join "data" Ex.late0 = destPath Path.Join "data" Ex.rec0 /\
  Time.Hour (time Ex.late1) = 1 /\
  files (snd (writeToFileV0 no_faults Csv.field Path.Join Path.Dir
                [Ex.late0; Ex.late1] "data" empty_world)) !! Ex.file00
  = Some (csv_record Csv.field (header Ex.late0)
          ++ csv_rows Csv.field [Ex.late0; Ex.late1])%string.
Proof.
  destruct (destPath_first_sample no_faults Csv.field Path.Join Path.Dir "data")
    as (_ & Hsame & Hall).
  split; [|split].
  - apply Hsame; reflexivity.
  - reflexivity.
  - destruct (Hall Ex.late0 [Ex.late1] empty_world) as (_ & Hrows).
    apply Hrows. apply no_faults_at.
Defined.

(** The errors of [MkdirAll], [OpenFile] and [Stat] are returned, and the
    call stops at the first of them. *)
Lemma writeToFileV0_early_errors (env : Env) (csv_field : string -> string)
    (Join : list string -> string) (Dir : string -> string)
    (s0 : Sample) (rest : list Sample) (dir : string) (w : World) :
  let path := destPath Join dir s0 in
  let w1 := log (SysMkdirAll (Dir path)) w in
  let result := writeToFileV0 env csv_field Join Dir (s0 :: rest) dir w in
  (forall at_dir e, mkdirall_fault env w (Dir path) = Some (at_dir, e) ->
                    result = (Some (PathError "mkdir" at_dir e), w1)) /\
  (forall e, mkdirall_fault env w (Dir path) = None ->
             open_fault env w1 path = Some e ->
             result = (Some (PathError "open" path e), log (SysOpen path) w1)) /\
  (forall e, mkdirall_fault env w (Dir path) = None ->
             open_fault env w1 path = None ->
             stat_fault env (snd (os_OpenFile env path w1)) path = Some e ->
             fst result = Some (PathError "stat" path e)).
Proof.
  intros path w1 result. unfold result, writeToFileV0. fold path.
  unfold os_MkdirAll. fold w1. repeat split.
  - intros at_dir e ->. reflexivity.
  - intros e -> Ho. unfold os_OpenFile. rewrite Ho. reflexivity.
  - intros e -> Ho. unfold os_OpenFile. rewrite Ho.
    destruct (files w1 !! path); cbn [snd]; intros Hs;
      unfold file_Stat; rewrite Hs; reflexivity.
Qed.

(** C9 (the code at a failing input).  The disk is full: the directory
    is made, the file is opened and its size read, and the one write, that
    of the final [Flush], fails.  [writeToFileV0] returns [nil] all the
    same, and the file is left empty. *)
Theorem writeToFileV0_flush_error_dropped
    (Join : list string -> string) (Dir : string -> string) :
  let path := destPath Join "data" Ex.rec0 in
  let out := (csv_record Csv.field (header Ex.rec0)
              ++ csv_rows Csv.field [Ex.rec0; Ex.rec1])%string in
  let result := writeToFileV0 disk_full Csv.field Join Dir
                  [Ex.rec0; Ex.rec1] "data" empty_world in
  write_fault disk_full empty_world path out = Some (O, ENOSPC) /\
  fst result = None /\
  files (snd result) !! path = Some EmptyString /\
  trace (snd result)
  = [SysMkdirAll (Dir path); SysOpen path; SysStat path;
     SysWrite path out; SysClose path].
Proof.
  intros path out result. split; [reflexivity|].
  assert (Hc : content empty_world path = EmptyString).
  { unfold content, empty_world. cbn [files]. rewrite lookup_empty. reflexivity. }
  assert (Hout : header_if_empty Csv.field (content empty_world path) Ex.rec0
                 = csv_record Csv.field (header Ex.rec0))
    by (rewrite Hc; reflexivity).
  unfold result. unfold path in Hc, Hout.
  rewrite writeToFileV0_buffered;
    [ | reflexivity | reflexivity | reflexivity
      | rewrite Hout; apply Nat.leb_le; vm_compute; reflexivity ].
  rewrite Hout. fold path out.
  unfold os_OpenFile, empty_world. cbn [disk_full open_fault log files snd].
  rewrite lookup_empty. cbn [snd].
  unfold csv_Flush, bufio_Flush. cbn [berr buf].
  replace (String.length out =? 0)%nat with false by (vm_compute; reflexivity).
  unfold file_Write. cbn [disk_full write_fault Nat.min snd fst].
  cbn [substring file_Close log set_content files trace].
  rewrite lookup_insert_eq.
  repeat split.
  f_equal. rewrite content_log, content_set_same. reflexivity.
Qed.

(** [Csv.field] writes a plain field as it is. *)
Lemma plain_char_special (c : ascii) :
  Csv.plain_char c = true ->
  Csv.special c = false /\ Ascii.eqb c "\" = false.
Proof.
  destruct c as [[] [] [] [] [] [] [] []]; intros H;
    first [discriminate H | split; reflexivity].
Qed.

Lemma all_plain_has_special (s : string) :
  Csv.all_plain s = true -> Csv.has_special s = false.
Proof.
  induction s as [|c s IH]; [reflexivity|].
  cbn [Csv.all_plain Csv.has_special]. intros H.
  apply andb_true_iff in H as [Hc Hs].
  destruct (plain_char_special c Hc) as [-> _]. rewrite IH by exact Hs.
  reflexivity.
Qed.

Lemma plain_char_leading_space (c : ascii) (s : string) :
  Csv.plain_char c = true -> Csv.leading_space (String c s) = false.
Proof.
  unfold Csv.leading_space. cbn [list_ascii_of_string map].
  generalize (map nat_of_ascii (list_ascii_of_string s)). intros l H.
  destruct c as [[] [] [] [] [] [] [] []]; try discriminate H;
    destruct l as [|b [|d l]]; reflexivity.
Qed.

Lemma Csv_field_plain (f : string) : Csv.plain f = true -> Csv.field f = f.
Proof.
  destruct f as [|c s]; [discriminate|]. cbn [Csv.plain]. intros H.
  unfold Csv.field, Csv.fieldNeedsQuotes.
  rewrite (all_plain_has_special _ H).
  cbn [Csv.all_plain] in H. apply andb_true_iff in H as [Hc _].
  rewrite (plain_char_leading_space c s Hc).
  destruct (plain_char_special c Hc) as [_ Hb].
  cbn [String.eqb]. rewrite Hb. reflexivity.
Qed.

(** C1 (counterexample).  The first sample of the example payload is not
    at 01:57:40 UTC: 1394413060 s after the epoch is 00:57:40 UTC on
    2014-03-10. *)
Lemma decodeV0_example_not_at_hour_1 :
  ~ (exists s0 s1,
       decodeV0 Ex.two_by_two = Ok [s0; s1] /\
       utc_clock (time s0) = (2014, 3, 10, 1, 57, 40, 0) /\
       values s0 = [10; 20] /\
       utc_clock (time s1) = (2014, 3, 10, 1, 57, 41, 0) /\
       values s1 = [30; 40]).
Proof.
  intros (s0 & s1 & Hd & Hc0 & _).
  assert (E : decodeV0 Ex.two_by_two = Ok [Ex.rec0; Ex.rec1])
    by (vm_compute; reflexivity).
  rewrite E in Hd. injection Hd as <- <-.
  vm_compute in Hc0. discriminate Hc0.
Qed.

(** C1 (amended).  Decoding the example payload ([t1] = 1394413060 s,
    [t2] = 0, period 1000 ms, 2 samples of 2 channels, values 10, 20 and
    30, 40) gives sample 0 at 2014-03-10T00:57:40Z with values 10, 20 and
    sample 1 at 2014-03-10T00:57:41Z with values 30, 40.  Written under a
    directory in which there is no file yet, with no failing system call
    and a CSV writer that leaves plain fields as they are, the batch makes
    one file, that of the hour 00, whose first line is
    [account,device,time,period,A0,A1] and whose next lines are the two
    rows. *)
Theorem decodeV0_example_written (env : Env) (csv_field : string -> string)
    (Join : list string -> string) (Dir : string -> string) (dir : string) :
  let path := Join [dir; "ABCDEFGHIJ"; "2014/03/10"; "00-aBK23o#OP@.dat"]%string in
  (forall f, Csv.plain f = true -> csv_field f = f) ->
  no_fault_at env (Dir path) path ->
  exists s0 s1 w',
    decodeV0 Ex.two_by_two = Ok [s0; s1] /\
    utc_clock (time s0) = (2014, 3, 10, 0, 57, 40, 0) /\
    values s0 = [10; 20] /\
    utc_clock (time s1) = (2014, 3, 10, 0, 57, 41, 0) /\
    values s1 = [30; 40] /\
    writeToFileV0 env csv_field Join Dir [s0; s1] dir empty_world = (None, w') /\
    files w'
    = {[ path :=
           ("account,device,time,period,A0,A1" ++ LF
            ++ "ABCDEFGHIJ,aBK23o#OP@,2014-03-10T00:57:40Z,1000,10,20" ++ LF
            ++ "ABCDEFGHIJ,aBK23o#OP@,2014-03-10T00:57:41Z,1000,30,40" ++ LF)%string ]}.
Proof.
  intros path Hplain Hnf.
  assert (Hpath : destPath Join dir Ex.rec0 = path) by reflexivity.
  rewrite <- Hpath in Hnf.
  destruct (writeToFileV0_ok env csv_field Join Dir Ex.rec0 [Ex.rec1] dir
              empty_world Hnf) as (w' & E & Hf & Hother & _).
  rewrite Hpath in Hf, Hother.
  exists Ex.rec0, Ex.rec1, w'.
  split; [vm_compute; reflexivity|].
  do 4 (split; [vm_compute; reflexivity|]).
  split; [exact E|].
  apply map_eq. intros p. destruct (decide (p = path)) as [->|Hp].
  - rewrite lookup_singleton_eq, Hf. f_equal.
    assert (Hc : content empty_world path = EmptyString).
    { unfold content, empty_world. cbn [files]. rewrite lookup_empty. reflexivity. }
    rewrite Hc. unfold header_if_empty. cbn [String.length Nat.eqb csv_rows fold_right].
    rewrite !(csv_record_plain csv_field) by (exact Hplain || (vm_compute; reflexivity)).
    vm_compute. reflexivity.
  - rewrite lookup_singleton_ne by congruence.
    rewrite Hother by exact Hp. apply lookup_empty.
Qed.

Lemma decodeV0_example_written_witness :
  exists s0 s1 w',
    decodeV0 Ex.two_by_two = Ok [s0; s1] /\
    Fmt.RFC3339Nano (time s0) = "2014-03-10T00:57:40Z"%string /\
    writeToFileV0 no_faults Csv.field Path.Join Path.Dir [s0; s1] "data"
      empty_world = (None, w') /\
    dom (files w') = {[ Ex.file00 ]}.
Proof.
  destruct (decodeV0_example_written no_faults Csv.field Path.Join Path.Dir "data")
    as (s0 & s1 & w' & Hd & Hc0 & _ & _ & _ & Hw & Hf).
  - exact Csv_field_plain.
  - apply no_faults_at.
  - exists s0, s1, w'. split; [exact Hd|]. split; [|split; [exact Hw|]].
    + assert (E : decodeV0 Ex.two_by_two = Ok [Ex.rec0; Ex.rec1])
        by (vm_compute; reflexivity).
      rewrite E in Hd. injection Hd as <- <-. vm_compute. reflexivity.
    + rewrite Hf. apply dom_singleton_L.
Defined.

(** * Further properties of the decoder *)

Lemma field_app (off len : nat) (body extra : list byte) :
  (off + len <= length body)%nat ->
  Hdr.field off len (body ++ extra) = Hdr.field off len body.
Proof.
  intros H. unfold Hdr.field.
  rewrite drop_app_le by lia. apply take_app_le. rewrite length_drop. lia.
Qed.

Lemma sample_index_bound (i j C N : nat) :
  (i < N)%nat -> (j < C)%nat -> (2 * (i * C + j) + 2 <= 2 * C * N)%nat.
Proof. intros Hi Hj. nia. Qed.

Lemma decodeV0_Ok_inv (body : list byte) (samples : list Sample) :
  decodeV0 body = Ok samples <->
  0 <= Hdr.nsamp body /\
  (Hdr.size + 2 * Z.to_nat (Hdr.nmeas body) * Z.to_nat (Hdr.nsamp body)
   <= length body)%nat /\
  samples = map (Hdr.sample body) (seq 0 (Z.to_nat (Hdr.nsamp body))).
Proof.
  split.
  - intros Hd.
    destruct (le_lt_dec Hdr.size (length body)) as [H33|H33];
      [|destruct (decodeV0_header_short body H33) as [e He]; congruence].
    destruct (Z_lt_le_dec (Hdr.nsamp body) 0) as [HN|HN];
      [rewrite decodeV0_negative in Hd by assumption; discriminate|].
    destruct (le_lt_dec
                (Hdr.size + 2 * Z.to_nat (Hdr.nmeas body)
                            * Z.to_nat (Hdr.nsamp body))
                (length body)) as [Hlen|Hlen];
      [|destruct (decodeV0_values_short body HN H33 Hlen) as [e He]; congruence].
    rewrite decodeV0_ok in Hd by assumption.
    split; [exact HN|]. split; [exact Hlen|congruence].
  - intros (HN & Hlen & ->). apply decodeV0_ok; assumption.
Qed.

(** X1.  [decodeV0] returns samples exactly when the 33 bytes of the
    fixed part are there, the number of samples is not negative and the
    body holds the N*C values it declares; the samples are then those of
    the layout, whatever follows the values. *)
Theorem decodeV0_succeeds_iff (body : list byte) (samples : list Sample) :
  decodeV0 body = Ok samples <->
  0 <= Hdr.nsamp body /\
  (Hdr.size + 2 * Z.to_nat (Hdr.nmeas body) * Z.to_nat (Hdr.nsamp body)
   <= length body)%nat /\
  samples = map (Hdr.sample body) (seq 0 (Z.to_nat (Hdr.nsamp body))).
Proof. apply decodeV0_Ok_inv. Qed.

Lemma decodeV0_succeeds_iff_witness :
  decodeV0 Ex.two_by_two = Ok [Ex.rec0; Ex.rec1].
Proof.
  apply (decodeV0_succeeds_iff Ex.two_by_two [Ex.rec0; Ex.rec1]).
  split; [vm_compute; discriminate|].
  split; [vm_compute; lia|vm_compute; reflexivity].
Defined.

(** X2.  Bytes after the declared values are ignored: a body that decodes
    still decodes, to the same samples, with anything appended. *)
Theorem decodeV0_ignores_trailing (body extra : list byte)
    (samples : list Sample) :
  decodeV0 body = Ok samples -> decodeV0 (body ++ extra) = Ok samples.
Proof.
  intros Hd. apply decodeV0_Ok_inv in Hd as (HN & Hlen & ->).
  unfold Hdr.size in Hlen.
  assert (Hs : Hdr.nsamp (body ++ extra) = Hdr.nsamp body)
    by (unfold Hdr.nsamp; rewrite field_app by lia; reflexivity).
  assert (Hm : Hdr.nmeas (body ++ extra) = Hdr.nmeas body)
    by (unfold Hdr.nmeas; rewrite field_app by lia; reflexivity).
  apply decodeV0_Ok_inv. rewrite Hs, Hm.
  split; [exact HN|]. split; [rewrite length_app; unfold Hdr.size; lia|].
  apply map_ext_in. intros i Hi. apply in_seq in Hi.
  unfold Hdr.sample, Hdr.id, Hdr.device, Hdr.t1, Hdr.t2, Hdr.per.
  rewrite Hm, !field_app by lia. apply f_equal.
  apply map_ext_in. intros j Hj. apply in_seq in Hj.
  unfold Hdr.value. rewrite Hm.
  pose proof (sample_index_bound i j (Z.to_nat (Hdr.nmeas body))
                (Z.to_nat (Hdr.nsamp body))).
  rewrite field_app by (unfold Hdr.size; lia). reflexivity.
Qed.

Lemma decodeV0_ignores_trailing_witness :
  decodeV0 (Ex.two_by_two ++ [x01; x02; x03]) = Ok [Ex.rec0; Ex.rec1].
Proof.
  apply (decodeV0_ignores_trailing Ex.two_by_two [x01; x02; x03]).
  vm_compute. reflexivity.
Defined.

Lemma decoded_sample_in (body : list byte) (samples : list Sample) (s : Sample) :
  decodeV0 body = Ok samples -> In s samples ->
  (Hdr.size <= length body)%nat /\
  exists i, (i < Z.to_nat (Hdr.nsamp body))%nat /\ s = Hdr.sample body i.
Proof.
  intros Hd Hs. apply decodeV0_Ok_inv in Hd as (HN & Hlen & ->).
  split; [lia|]. apply in_map_iff in Hs as (i & <- & Hi).
  apply in_seq in Hi. exists i. split; [lia|reflexivity].
Qed.

Lemma decoded_sample_lookup (body : list byte) (samples : list Sample)
    (i : nat) (s : Sample) :
  decodeV0 body = Ok samples -> samples !! i = Some s ->
  (Hdr.size <= length body)%nat /\ s = Hdr.sample body i.
Proof.
  intros Hd Hs. apply decodeV0_Ok_inv in Hd as (HN & Hlen & ->).
  split; [lia|]. apply lookup_map_seq in Hs as [_ ->]. reflexivity.
Qed.

Lemma nmeas_range (body : list byte) : 0 <= Hdr.nmeas body <= 255.
Proof.
  unfold Hdr.nmeas. pose proof (le_uint_bound (Hdr.field 32 1 body)) as H.
  assert (256 ^ Z.of_nat (length (Hdr.field 32 1 body)) <= 256 ^ 1).
  { apply Z.pow_le_mono_r; [lia|]. unfold Hdr.field. rewrite length_take. lia. }
  lia.
Qed.

Lemma field_int16_range (off : nat) (body : list byte) :
  Int.in_int16 (Int.le_int16 (Hdr.field off 2 body)).
Proof. apply le_int16_range. unfold Hdr.field. rewrite length_take. lia. Qed.

(** X3.  The samples of one payload share the account, the device and the
    period of its header, each of the two identifiers is 10 bytes long,
    and every sample has as many values as the header declares
    channels. *)
Theorem decodeV0_batch_uniform (body : list byte) (samples : list Sample)
    (s : Sample) :
  decodeV0 body = Ok samples -> In s samples ->
  id s = take 10 body /\ length (id s) = 10%nat /\
  device s = take 10 (drop 10 body) /\ length (device s) = 10%nat /\
  per s = Hdr.per body /\
  Z.of_nat (length (values s)) = Hdr.nmeas body.
Proof.
  intros Hd Hs.
  destruct (decoded_sample_in body samples s Hd Hs) as (H33 & i & _ & ->).
  unfold Hdr.size in H33. pose proof (nmeas_range body).
  cbn [Hdr.sample id device per values].
  unfold Hdr.id, Hdr.device, Hdr.field. rewrite drop_0.
  rewrite !length_take, length_drop, length_map, length_seq.
  repeat split; lia.
Qed.

Lemma decodeV0_batch_uniform_witness :
  id Ex.rec1 = take 10 Ex.two_by_two /\ length (values Ex.rec1) = 2%nat.
Proof.
  destruct (decodeV0_batch_uniform Ex.two_by_two [Ex.rec0; Ex.rec1] Ex.rec1)
    as (H1 & _ & _ & _ & _ & H2).
  - vm_compute. reflexivity.
  - right. left. reflexivity.
  - split; [exact H1|]. apply Nat2Z.inj. rewrite H2. vm_compute. reflexivity.
Defined.

(** X4.  A decoded batch has at most 32767 samples of at most 255 values
    each, and its period and all its values are in the range of
    [int16]. *)
Theorem decodeV0_bounds (body : list byte) (samples : list Sample) :
  decodeV0 body = Ok samples ->
  Z.of_nat (length samples) <= 32767 /\
  forall s, In s samples ->
    (length (values s) <= 255)%nat /\
    Int.in_int16 (per s) /\
    forall v, In v (values s) -> Int.in_int16 v.
Proof.
  intros Hd. split.
  - apply decodeV0_Ok_inv in Hd as (HN & _ & ->).
    rewrite length_map, length_seq.
    pose proof (field_int16_range 30 body) as H. fold (Hdr.nsamp body) in H.
    unfold Int.in_int16 in H. lia.
  - intros s Hs.
    destruct (decoded_sample_in body samples s Hd Hs) as (_ & i & _ & ->).
    cbn [Hdr.sample per values]. pose proof (nmeas_range body).
    rewrite length_map, length_seq. split; [lia|].
    split; [apply field_int16_range|].
    intros v Hv. apply in_map_iff in Hv as (j & <- & _).
    apply field_int16_range.
Qed.

Lemma decodeV0_bounds_witness :
  Z.of_nat (length [Ex.rec0; Ex.rec1]) <= 32767 /\ Int.in_int16 (per Ex.rec0).
Proof.
  destruct (decodeV0_bounds Ex.two_by_two [Ex.rec0; Ex.rec1]) as [H1 H2].
  - vm_compute. reflexivity.
  - split; [exact H1|].
    destruct (H2 Ex.rec0) as (_ & Hp & _); [left; reflexivity|exact Hp].
Defined.

(** X5.  In a decoded batch, the instant of sample [i] is the documented
    [t1 * 1000 + t2 + i * period] milliseconds as long as the product
    [period * i] fits in an [int16]; two consecutive samples for which it
    does are one period apart. *)
Theorem decodeV0_time_linear (body : list byte) (samples : list Sample)
    (i : nat) (s : Sample) :
  decodeV0 body = Ok samples -> samples !! i = Some s ->
  Int.in_int16 (Hdr.per body * Z.of_nat i) ->
  Time.UnixNano (time s)
  = documented_ms (Hdr.t1 body) (Hdr.t2 body) (Hdr.per body) (Z.of_nat i)
    * 1000000 /\
  forall s', samples !! S i = Some s' ->
    Int.in_int16 (Hdr.per body * Z.of_nat (S i)) ->
    Time.UnixNano (time s') - Time.UnixNano (time s)
    = Hdr.per body * 1000000.
Proof.
  intros Hd Hs Hr.
  destruct (decoded_sample_lookup body samples i s Hd Hs) as (_ & ->).
  assert (H1 : 0 <= Hdr.t1 body < 2 ^ 32)
    by (apply le_uint32_range; unfold Hdr.field; rewrite length_take; lia).
  assert (H2 : 0 <= Hdr.t2 body < 2 ^ 32)
    by (apply le_uint32_range; unfold Hdr.field; rewrite length_take; lia).
  cbn [Hdr.sample time].
  rewrite sample_time_documented by assumption.
  split; [reflexivity|].
  intros s' Hs' Hr'.
  destruct (decoded_sample_lookup body samples (S i) s' Hd Hs') as (_ & ->).
  cbn [Hdr.sample time].
  rewrite sample_time_documented by assumption.
  unfold documented_ms. lia.
Qed.

Lemma decodeV0_time_linear_witness :
  Time.UnixNano (time Ex.rec1) - Time.UnixNano (time Ex.rec0) = 1000 * 1000000.
Proof.
  destruct (decodeV0_time_linear Ex.two_by_two [Ex.rec0; Ex.rec1] 0 Ex.rec0)
    as [_ H].
  - vm_compute. reflexivity.
  - reflexivity.
  - vm_compute. split; discriminate.
  - apply (H Ex.rec1); [reflexivity|]. vm_compute. split; discriminate.
Defined.

Lemma wrap_range (w z : Z) :
  0 < w -> - 2 ^ (w - 1) <= Int.wrap w z < 2 ^ (w - 1).
Proof.
  intros Hw. unfold Int.wrap.
  assert (E : 2 ^ w = 2 * 2 ^ (w - 1))
    by (rewrite <- Z.pow_succ_r by lia; f_equal; lia).
  assert (0 < 2 ^ (w - 1)) by (apply Z.pow_pos_nonneg; lia).
  pose proof (Z.mod_pos_bound (z + 2 ^ (w - 1)) (2 ^ w)). lia.
Qed.

Lemma Unix_nsec_range (s n : Z) :
  0 <= Time.nsec (Time.Unix s n) < 1000000000.
Proof.
  unfold Time.Unix.
  destruct (Z.ltb_spec n 0) as [Hneg|Hpos]; cbn [orb].
  - pose proof (Z.quot_rem' n 1000000000) as E.
    pose proof (Z.rem_bound_pos_neg n 1000000000 ltac:(lia) ltac:(lia)) as B.
    destruct (Z.ltb_spec (n - Z.quot n 1000000000 * 1000000000) 0);
      cbn [Time.nsec]; lia.
  - destruct (Z.leb_spec 1000000000 n) as [Hbig|Hsmall]; cbn [Time.nsec]; [|lia].
    pose proof (Z.quot_rem' n 1000000000) as E.
    pose proof (Z.rem_bound_pos n 1000000000 ltac:(lia) ltac:(lia)) as B.
    destruct (Z.ltb_spec (n - Z.quot n 1000000000 * 1000000000) 0);
      cbn [Time.nsec]; lia.
Qed.

Lemma Unix_nsec_ms (s m : Z) :
  Time.nsec (Time.Unix s (m * 1000000)) mod 1000000 = 0.
Proof.
  unfold Time.Unix.
  set (q := Z.quot (m * 1000000) 1000000000).
  destruct (_ || _); cbn [Time.nsec]; [|apply Z_mod_mult].
  destruct (_ <? 0); cbn [Time.nsec].
  - replace (m * 1000000 - q * 1000000000 + 1000000000)
      with ((m - 1000 * q + 1000) * 1000000) by lia.
    apply Z_mod_mult.
  - replace (m * 1000000 - q * 1000000000)
      with ((m - 1000 * q) * 1000000) by lia.
    apply Z_mod_mult.
Qed.

(** X6.  The instant of every decoded sample is a whole number of
    milliseconds, with its nanoseconds carried into the seconds: the
    nanosecond part is in [0, 1e9) and a multiple of 1e6, also where the
    product [period * i] has wrapped around. *)
Theorem decodeV0_time_millisecond (body : list byte) (samples : list Sample)
    (s : Sample) :
  decodeV0 body = Ok samples -> In s samples ->
  0 <= Time.nsec (time s) < 1000000000 /\
  Time.nsec (time s) mod 1000000 = 0 /\
  Time.UnixNano (time s) mod 1000000 = 0.
Proof.
  intros Hd Hs.
  destruct (decoded_sample_in body samples s Hd Hs) as (_ & i & _ & ->).
  cbn [Hdr.sample time]. unfold sample_time.
  assert (H2 : 0 <= Hdr.t2 body < 2 ^ 32)
    by (apply le_uint32_range; unfold Hdr.field; rewrite length_take; lia).
  pose proof (wrap_range 16 (Hdr.per body * Z.of_nat i) ltac:(lia)) as Hw.
  fold (Int.int16_wrap (Hdr.per body * Z.of_nat i)) in Hw.
  change (2 ^ (16 - 1)) with 32768 in Hw. change (2 ^ 32) with 4294967296 in H2.
  unfold Int.int64_wrap. rewrite (wrap_id 64) by (simpl; lia).
  split; [apply Unix_nsec_range|]. split; [apply Unix_nsec_ms|].
  rewrite UnixNano_Unix.
  replace (Hdr.t1 body * 1000000000
           + (Hdr.t2 body + Int.int16_wrap (Hdr.per body * Z.of_nat i)) * 1000000)
    with ((Hdr.t1 body * 1000 + Hdr.t2 body
           + Int.int16_wrap (Hdr.per body * Z.of_nat i)) * 1000000) by lia.
  apply Z_mod_mult.
Qed.

Lemma decodeV0_time_millisecond_witness :
  Time.nsec (time Ex.rec0) mod 1000000 = 0.
Proof.
  apply (decodeV0_time_millisecond Ex.two_by_two [Ex.rec0; Ex.rec1] Ex.rec0).
  - vm_compute. reflexivity.
  - left. reflexivity.
Defined.

(** X7.  A body shorter than the fixed part makes [decodeV0] panic with
    [io.EOF] when it ends exactly where a field begins (after 0, 10, 20,
    24, 28, 30 or 32 bytes) and with [io.ErrUnexpectedEOF] when it ends
    inside a field. *)
Theorem decodeV0_short_header_error (body : list byte) :
  (length body < Hdr.size)%nat ->
  decodeV0 body
  = Panicked (PanicErr
      (if existsb (Nat.eqb (length body)) [0; 10; 20; 24; 28; 30; 32]%nat
       then EOF else ErrUnexpectedEOF)).
Proof.
  unfold Hdr.size. intros H.
  do 33 (destruct body as [|? body]; [reflexivity|]).
  cbn [length] in H. lia.
Qed.

Lemma decodeV0_short_header_error_witness :
  decodeV0 (take 21 Ex.two_by_two) = Panicked (PanicErr ErrUnexpectedEOF).
Proof.
  apply (decodeV0_short_header_error (take 21 Ex.two_by_two)).
  vm_compute. lia.
Defined.

(** X8.  Every row of a decoded batch has as many columns as the header
    row of its first sample: the four fixed columns and one per declared
    channel. *)
Theorem decodeV0_rows_match_header (body : list byte) (s0 : Sample)
    (rest : list Sample) (s : Sample) :
  decodeV0 body = Ok (s0 :: rest) -> In s (s0 :: rest) ->
  length (row s) = length (header s0) /\
  Z.of_nat (length (header s0)) = 4 + Hdr.nmeas body.
Proof.
  intros Hd Hs.
  destruct (decoded_sample_in body _ s Hd Hs) as (_ & i & _ & ->).
  destruct (decoded_sample_in body _ s0 Hd (or_introl eq_refl))
    as (_ & i0 & _ & ->).
  pose proof (nmeas_range body).
  unfold row, header. cbn [Hdr.sample values].
  rewrite !length_app, !length_map, !length_seq. cbn [length]. lia.
Qed.

Lemma decodeV0_rows_match_header_witness :
  length (row Ex.rec1) = length (header Ex.rec0).
Proof.
  apply (decodeV0_rows_match_header Ex.two_by_two Ex.rec0 [Ex.rec1] Ex.rec1).
  - vm_compute. reflexivity.
  - right. left. reflexivity.
Defined.

(** * Further properties of the writer *)

Section WriterStream.

Local Open Scope string_scope.

Variable env : Env.
Variable csv_field : string -> string.
Variable filepath_Join : list string -> string.
Variable filepath_Dir : string -> string.

Lemma starts_with_refl (s : string) : starts_with s s.
Proof. exists "". rewrite Str.app_nil_r. reflexivity. Qed.

Lemma starts_with_nil (s : string) : starts_with s "".
Proof. exists s. reflexivity. Qed.

Lemma starts_with_app (s p t : string) :
  starts_with s p -> starts_with (s ++ t) p.
Proof. intros [r ->]. exists (r ++ t). apply Str.app_assoc. Qed.

Lemma substring_starts (n : nat) (s : string) : starts_with s (substring 0 n s).
Proof.
  revert n. induction s as [|c s IH]; intros [|n]; cbn [substring];
    try apply starts_with_nil.
  destruct (IH n) as [r Hr]. exists r. rewrite Str.app_cons, <- Hr. reflexivity.
Qed.

Lemma wrote_fail_more (path pending more : string) (w : World)
    (res : option error * (bufio_Writer * World)) (e : error) :
  fst res = Some e -> wrote path pending w res ->
  wrote path (pending ++ more) w res.
Proof.
  intros He (p & Hc & Hp & _). exists p. split; [exact Hc|].
  split; [apply starts_with_app; exact Hp|]. rewrite He. discriminate.
Qed.

Lemma wrote_then (path pending more : string) (w w1 : World)
    (b1 : bufio_Writer) (res : option error * (bufio_Writer * World)) :
  wrote path pending w (None, (b1, w1)) ->
  wrote path (buf b1 ++ more) w1 res ->
  wrote path (pending ++ more) w res.
Proof.
  intros (p1 & Hc1 & _ & H1) (p2 & Hc2 & [r Hr] & H2).
  cbn [fst snd] in *. destruct (H1 eq_refl) as [_ E1].
  exists (p1 ++ p2). split; [|split].
  - rewrite Hc2, Hc1, Str.app_assoc. reflexivity.
  - exists r. rewrite <- E1, !Str.app_assoc, Hr. reflexivity.
  - intros Hn. destruct (H2 Hn) as [Hb E2]. split; [exact Hb|].
    rewrite <- E1, !Str.app_assoc, E2. reflexivity.
Qed.

Lemma wrote_nothing (path : string) (b : bufio_Writer) (w : World) :
  berr b = None -> wrote path (buf b) w (None, (b, w)).
Proof.
  intros Hb. exists "". cbn [fst snd]. rewrite Str.app_nil_r.
  split; [reflexivity|]. split; [apply starts_with_nil|]. auto.
Qed.

Lemma bufio_Flush_wrote (path : string) (b : bufio_Writer) (w : World) :
  berr b = None ->
  wrote path (buf b) w (bufio_Flush env path (b, w)) /\
  (fst (bufio_Flush env path (b, w)) = None ->
   buf (fst (snd (bufio_Flush env path (b, w)))) = "").
Proof.
  intros Hb. unfold bufio_Flush. rewrite Hb.
  destruct (String.length (buf b) =? 0)%nat eqn:E.
  - apply Nat.eqb_eq, Str.length_zero in E.
    split; [apply wrote_nothing; exact Hb|]. intros _. exact E.
  - unfold file_Write.
    destruct (write_fault env w path (buf b)) as [[n e]|]; cbn [fst snd].
    + split; [|discriminate].
      exists (substring 0 (Nat.min n (String.length (buf b))) (buf b)).
      cbn [fst snd]. rewrite content_set_same.
      split; [reflexivity|]. split; [apply substring_starts|discriminate].
    + split; [|reflexivity].
      exists (buf b). cbn [fst snd buf berr]. rewrite content_set_same.
      split; [reflexivity|]. split; [apply starts_with_refl|].
      intros _. split; [reflexivity|apply Str.app_nil_r].
Qed.

Lemma bufio_WriteByte_wrote (path : string) (c : ascii) (b : bufio_Writer)
    (w : World) :
  berr b = None ->
  wrote path (buf b ++ String c "") w (bufio_WriteByte env path c (b, w)).
Proof.
  intros Hb. unfold bufio_WriteByte. rewrite Hb.
  destruct (defaultBufSize <=? String.length (buf b))%nat.
  - destruct (bufio_Flush_wrote path b w Hb) as [Hf Hempty].
    destruct (bufio_Flush env path (b, w)) as [[e|] [b' w']] eqn:E.
    + eapply wrote_fail_more; [reflexivity|exact Hf].
    + eapply wrote_then; [exact Hf|].
      destruct Hf as (p0 & Hc0 & Hp0 & Hn). destruct (Hn eq_refl) as [Hb' _].
      cbn [fst snd] in *.
      exists "". cbn [fst snd buf berr]. rewrite Str.app_nil_r.
      split; [reflexivity|]. split; [apply starts_with_nil|]. auto.
  - exists "". cbn [fst snd buf berr]. rewrite Str.app_nil_r.
    split; [reflexivity|]. split; [apply starts_with_nil|]. auto.
Qed.

Lemma bufio_WriteString_wrote (path s : string) :
  forall (b : bufio_Writer) (w : World),
  berr b = None ->
  wrote path (buf b ++ s) w (bufio_WriteString env path s (b, w)).
Proof.
  induction s as [|c s IH]; intros b w Hb.
  - cbn [bufio_WriteString fst]. rewrite Hb, Str.app_nil_r.
    apply wrote_nothing. exact Hb.
  - cbn [bufio_WriteString].
    pose proof (bufio_WriteByte_wrote path c b w Hb) as H1.
    replace (buf b ++ String c s) with ((buf b ++ String c "") ++ s)
      by (rewrite Str.app_assoc; reflexivity).
    destruct (bufio_WriteByte env path c (b, w)) as [[e|] [b1 w1]].
    + eapply wrote_fail_more; [reflexivity|exact H1].
    + eapply wrote_then; [exact H1|]. apply IH.
      destruct H1 as (p0 & Hc0 & Hp0 & Hn). apply (Hn eq_refl).
Qed.

Lemma write_rows_wrote (path : string) (samples : list Sample) :
  forall (b : bufio_Writer) (w : World),
  berr b = None ->
  wrote path (buf b ++ csv_rows csv_field samples) w
    (write_rows env csv_field path samples (b, w)).
Proof.
  induction samples as [|v rest IH]; intros b w Hb.
  - cbn [write_rows csv_rows fold_right]. rewrite Str.app_nil_r.
    apply wrote_nothing. exact Hb.
  - change (csv_rows csv_field (v :: rest))
      with (csv_record csv_field (row v) ++ csv_rows csv_field rest).
    cbn [write_rows]. unfold csv_Write. rewrite <- Str.app_assoc.
    pose proof (bufio_WriteString_wrote path (csv_record csv_field (row v))
                  b w Hb) as H1.
    destruct (bufio_WriteString env path _ (b, w)) as [[e|] [b1 w1]].
    + eapply wrote_fail_more; [reflexivity|exact H1].
    + eapply wrote_then; [exact H1|]. apply IH.
      destruct H1 as (p0 & Hc0 & Hp0 & Hn). apply (Hn eq_refl).
Qed.

Lemma wrote_closed (path pending : string) (w0 w : World)
    (res : option error * (bufio_Writer * World)) :
  content w path = content w0 path ->
  wrote path pending w res ->
  exists p,
    content (file_Close path (snd (snd res))) path = content w0 path ++ p /\
    starts_with pending p.
Proof.
  intros Hw (p & Hc & Hp & _). exists p. unfold file_Close.
  rewrite content_log, Hc, Hw. auto.
Qed.

Lemma writeToFileV0_wrote (s0 : Sample) (rest : list Sample) (dir : string)
    (w : World) :
  let path := destPath filepath_Join dir s0 in
  let w' := snd (writeToFileV0 env csv_field filepath_Join filepath_Dir
                   (s0 :: rest) dir w) in
  exists p,
    content w' path = content w path ++ p /\
    starts_with (header_if_empty csv_field (content w path) s0
                 ++ csv_rows csv_field (s0 :: rest)) p.
Proof.
  intros path w'.
  assert (Hnone : forall w0 : World, content w0 path = content w path ->
            exists p, content w0 path = content w path ++ p /\
                      starts_with (header_if_empty csv_field (content w path) s0
                                   ++ csv_rows csv_field (s0 :: rest)) p).
  { intros w0 H0. exists "". rewrite Str.app_nil_r.
    split; [exact H0|apply starts_with_nil]. }
  unfold w', writeToFileV0. fold path.
  unfold os_MkdirAll.
  set (w1 := log (SysMkdirAll (filepath_Dir path)) w).
  destruct (mkdirall_fault env w (filepath_Dir path)) as [[at_dir e]|];
    cbn [snd];
    [apply Hnone; reflexivity|].
  destruct (open_fault env w1 path) as [e|] eqn:Ho.
  { unfold os_OpenFile. rewrite Ho. cbn [snd]. apply Hnone. reflexivity. }
  destruct (os_OpenFile_ok env csv_field filepath_Dir path w1 Ho)
    as (w2 & -> & _ & Hc2 & _).
  change (content w1 path) with (content w path) in Hc2.
  unfold file_Stat. set (w3 := log (SysStat path) w2).
  assert (Hc3 : content w3 path = content w path) by exact Hc2.
  destruct (stat_fault env w2 path); cbn [snd].
  { apply Hnone. unfold file_Close. rewrite content_log. exact Hc3. }
  assert (H4 : wrote path (header_if_empty csv_field (content w path) s0) w3
            (if (String.length (content w2 path) =? 0)%nat
             then csv_Write env csv_field path (header s0) (NewWriter, w3)
             else (None, (NewWriter, w3)))).
  { unfold header_if_empty. rewrite Hc2.
    destruct (String.length (content w path) =? 0)%nat.
    - apply (bufio_WriteString_wrote path (csv_record csv_field (header s0))
               NewWriter w3 eq_refl).
    - apply (wrote_nothing path NewWriter w3 eq_refl). }
  destruct (if (String.length (content w2 path) =? 0)%nat then _ else _)
    as [[e|] [b4 w4]]; cbn [snd].
  { eapply wrote_fail_more in H4; [|reflexivity].
    apply (wrote_closed path _ w w3 _ Hc3 H4). }
  assert (Hb4 : berr b4 = None).
  { destruct H4 as (p0 & _ & _ & Hn). apply (Hn eq_refl). }
  pose proof (write_rows_wrote path (s0 :: rest) b4 w4 Hb4) as H5.
  pose proof (wrote_then path _ _ w3 w4 b4 _ H4 H5) as H45.
  clear H5.
  destruct (write_rows env csv_field path (s0 :: rest) (b4, w4))
    as [[e|] [b5 w5]]; cbn [snd].
  { apply (wrote_closed path _ w w3 _ Hc3 H45). }
  assert (Hb5 : berr b5 = None).
  { destruct H45 as (p0 & _ & _ & Hn). apply (Hn eq_refl). }
  destruct (bufio_Flush_wrote path b5 w5 Hb5) as [H6 _].
  rewrite <- (Str.app_nil_r (buf b5)) in H6.
  pose proof (wrote_then path _ _ w3 w5 b5 _ H45 H6) as H456.
  rewrite Str.app_nil_r in H456.
  unfold csv_Flush.
  apply (wrote_closed path _ w w3 _ Hc3 H456).
Qed.

End WriterStream.

(** X9.  Whatever the environment does, the bytes a call adds to the file
    are a beginning of the header row (if the file was empty) followed by
    the rows of the batch: a failure can cut the output short, but the
    file never receives anything else, nor anything out of order. *)
Theorem writeToFileV0_adds_a_beginning (env : Env)
    (csv_field : string -> string) (Join : list string -> string)
    (Dir : string -> string) (s0 : Sample) (rest : list Sample)
    (dir : string) (w : World) :
  let path := destPath Join dir s0 in
  let w' := snd (writeToFileV0 env csv_field Join Dir (s0 :: rest) dir w) in
  exists p,
    content w' path = (content w path ++ p)%string /\
    starts_with (header_if_empty csv_field (content w path) s0
                 ++ csv_rows csv_field (s0 :: rest))%string p.
Proof. apply writeToFileV0_wrote. Qed.

Section WriterTrace.

Variable env : Env.
Variable csv_field : string -> string.
Variable filepath_Join : list string -> string.
Variable filepath_Dir : string -> string.

Lemma only_writes_refl (path : string) (w : World) : only_writes path w w.
Proof. exists []. cbn [map]. rewrite app_nil_r. reflexivity. Qed.

Lemma only_writes_trans (path : string) (w1 w2 w3 : World) :
  only_writes path w1 w2 -> only_writes path w2 w3 -> only_writes path w1 w3.
Proof.
  intros [d1 E1] [d2 E2]. exists (d1 ++ d2).
  rewrite E2, E1, map_app, app_assoc. reflexivity.
Qed.

Lemma bufio_Flush_trace (path : string) (b : bufio_Writer) (w : World) :
  only_writes path w (snd (snd (bufio_Flush env path (b, w)))).
Proof.
  unfold bufio_Flush. destruct (berr b); [apply only_writes_refl|].
  destruct (String.length (buf b) =? 0)%nat; [apply only_writes_refl|].
  unfold file_Write.
  destruct (write_fault env w path (buf b)) as [[n e]|]; cbn [snd];
    exists [buf b]; reflexivity.
Qed.

Lemma bufio_WriteByte_trace (path : string) (c : ascii) (b : bufio_Writer)
    (w : World) :
  only_writes path w (snd (snd (bufio_WriteByte env path c (b, w)))).
Proof.
  unfold bufio_WriteByte. destruct (berr b); [apply only_writes_refl|].
  destruct (defaultBufSize <=? String.length (buf b))%nat;
    [|apply only_writes_refl].
  pose proof (bufio_Flush_trace path b w) as H.
  destruct (bufio_Flush env path (b, w)) as [[e|] [b' w']]; exact H.
Qed.

Lemma bufio_WriteString_trace (path s : string) :
  forall (b : bufio_Writer) (w : World),
  only_writes path w (snd (snd (bufio_WriteString env path s (b, w)))).
Proof.
  induction s as [|c s IH]; intros b w; [apply only_writes_refl|].
  cbn [bufio_WriteString].
  pose proof (bufio_WriteByte_trace path c b w) as H.
  destruct (bufio_WriteByte env path c (b, w)) as [[e|] [b' w']]; [exact H|].
  eapply only_writes_trans; [exact H|apply IH].
Qed.

Lemma write_rows_trace (path : string) (samples : list Sample) :
  forall (b : bufio_Writer) (w : World),
  only_writes path w (snd (snd (write_rows env csv_field path samples (b, w)))).
Proof.
  induction samples as [|v rest IH]; intros b w; [apply only_writes_refl|].
  cbn [write_rows]. unfold csv_Write.
  pose proof (bufio_WriteString_trace path (csv_record csv_field (row v)) b w)
    as H.
  destruct (bufio_WriteString env path _ (b, w)) as [[e|] [b' w']]; [exact H|].
  eapply only_writes_trans; [exact H|apply IH].
Qed.

Lemma os_OpenFile_trace (path : string) (w : World) :
  trace (snd (os_OpenFile env path w)) = trace w ++ [SysOpen path].
Proof.
  unfold os_OpenFile. destruct (open_fault env w path); [reflexivity|].
  destruct (files w !! path); reflexivity.
Qed.

Lemma writeToFileV0_calls (s0 : Sample) (rest : list Sample) (dir : string)
    (w : World) :
  let path := destPath filepath_Join dir s0 in
  let w1 := log (SysMkdirAll (filepath_Dir path)) w in
  let w' := snd (writeToFileV0 env csv_field filepath_Join filepath_Dir
                   (s0 :: rest) dir w) in
  (mkdirall_fault env w (filepath_Dir path) <> None ->
   trace w' = trace w ++ [SysMkdirAll (filepath_Dir path)]) /\
  (mkdirall_fault env w (filepath_Dir path) = None ->
   open_fault env w1 path <> None ->
   trace w' = trace w ++ [SysMkdirAll (filepath_Dir path); SysOpen path]) /\
  (mkdirall_fault env w (filepath_Dir path) = None ->
   open_fault env w1 path = None ->
   exists datas,
     trace w'
     = trace w ++ [SysMkdirAll (filepath_Dir path); SysOpen path; SysStat path]
               ++ map (SysWrite path) datas ++ [SysClose path]).
Proof.
  intros path w1 w'. unfold w', writeToFileV0. fold path.
  unfold os_MkdirAll. fold w1.
  split; [|split].
  - destruct (mkdirall_fault env w (filepath_Dir path)) as [[at_dir e]|];
      [reflexivity|congruence].
  - intros -> Ho. unfold os_OpenFile.
    destruct (open_fault env w1 path); [|congruence].
    unfold w1. cbn [snd log trace]. rewrite <- app_assoc. reflexivity.
  - intros -> Ho.
    pose proof (os_OpenFile_trace path w1) as H2.
    assert (E2 : fst (os_OpenFile env path w1) = None).
    { unfold os_OpenFile. rewrite Ho. destruct (files w1 !! path); reflexivity. }
    destruct (os_OpenFile env path w1) as [o w2]. cbn [fst snd] in *. subst o.
    assert (H3 : trace (log (SysStat path) w2)
                 = trace w ++ [SysMkdirAll (filepath_Dir path); SysOpen path;
                               SysStat path]).
    { cbn [log trace]. rewrite H2. unfold w1. cbn [log trace].
      rewrite <- !app_assoc. reflexivity. }
    assert (Hfin : forall w5, only_writes path (log (SysStat path) w2) w5 ->
              exists datas,
                trace (file_Close path w5)
                = trace w ++ [SysMkdirAll (filepath_Dir path); SysOpen path;
                              SysStat path]
                          ++ map (SysWrite path) datas ++ [SysClose path]).
    { intros w5 [datas E]. exists datas. cbn [file_Close log trace].
      rewrite E, H3, <- !app_assoc. reflexivity. }
    unfold file_Stat. set (w3 := log (SysStat path) w2) in *.
    destruct (stat_fault env w2 path); cbn [snd].
    { apply Hfin, only_writes_refl. }
    assert (H4 : only_writes path w3
              (snd (snd (if (String.length (content w2 path) =? 0)%nat
                         then csv_Write env csv_field path (header s0)
                                (NewWriter, w3)
                         else (None, (NewWriter, w3)))))).
    { destruct (String.length (content w2 path) =? 0)%nat;
        [apply bufio_WriteString_trace|apply only_writes_refl]. }
    destruct (if (String.length (content w2 path) =? 0)%nat then _ else _)
      as [[e|] [b4 w4]]; cbn [snd] in *.
    { apply Hfin, H4. }
    pose proof (write_rows_trace path (s0 :: rest) b4 w4) as H5.
    destruct (write_rows env csv_field path (s0 :: rest) (b4, w4))
      as [[e|] [b5 w5]]; cbn [snd] in *.
    { apply Hfin. eapply only_writes_trans; eassumption. }
    unfold csv_Flush. apply Hfin.
    eapply only_writes_trans; [exact H4|].
    eapply only_writes_trans; [exact H5|apply bufio_Flush_trace].
Qed.

End WriterTrace.

(** X10.  The system calls of a call on a batch that is not empty, in
    any environment: [MkdirAll] alone when it fails; [MkdirAll] and
    [OpenFile] when the latter fails; otherwise [MkdirAll], [OpenFile],
    [Stat], then writes to the file only, and [Close] as the last call.
    A file that was opened is closed, whatever fails on the way. *)
Theorem writeToFileV0_opens_then_closes (env : Env)
    (csv_field : string -> string) (Join : list string -> string)
    (Dir : string -> string) (s0 : Sample) (rest : list Sample)
    (dir : string) (w : World) :
  let path := destPath Join dir s0 in
  let w1 := log (SysMkdirAll (Dir path)) w in
  let w' := snd (writeToFileV0 env csv_field Join Dir (s0 :: rest) dir w) in
  (mkdirall_fault env w (Dir path) <> None ->
   trace w' = trace w ++ [SysMkdirAll (Dir path)]) /\
  (mkdirall_fault env w (Dir path) = None ->
   open_fault env w1 path <> None ->
   trace w' = trace w ++ [SysMkdirAll (Dir path); SysOpen path]) /\
  (mkdirall_fault env w (Dir path) = None ->
   open_fault env w1 path = None ->
   exists datas,
     trace w'
     = trace w ++ [SysMkdirAll (Dir path); SysOpen path; SysStat path]
               ++ map (SysWrite path) datas ++ [SysClose path]).
Proof. apply writeToFileV0_calls. Qed.

Lemma writeToFileV0_opens_then_closes_witness :
  exists datas,
    trace (snd (writeToFileV0 disk_full Csv.field Path.Join Path.Dir
                  [Ex.rec0; Ex.rec1] "data" empty_world))
    = [SysMkdirAll (Path.Dir Ex.file00); SysOpen Ex.file00; SysStat Ex.file00]
      ++ map (SysWrite Ex.file00) datas ++ [SysClose Ex.file00].
Proof.
  destruct (writeToFileV0_opens_then_closes disk_full Csv.field Path.Join
              Path.Dir Ex.rec0 [Ex.rec1] "data" empty_world) as (_ & _ & H).
  destruct H as [datas E]; [reflexivity|reflexivity|].
  exists datas. exact E.
Defined.

Lemma os_OpenFile_content (env : Env) (path p : string) (w : World) :
  content (snd (os_OpenFile env path w)) p = content w p.
Proof.
  unfold os_OpenFile. destruct (open_fault env w path); [reflexivity|].
  destruct (files w !! path) eqn:E; [reflexivity|]. cbn [snd].
  unfold content, set_content. cbn [files log].
  destruct (decide (p = path)) as [->|Hp].
  - rewrite lookup_insert_eq, E. reflexivity.
  - rewrite lookup_insert_ne by congruence. reflexivity.
Qed.

(** X11.  When [MkdirAll], [OpenFile] or [Stat] fails, the call returns
    an error and the content of every file is what it was: nothing is
    written after a failure of one of the three. *)
Theorem writeToFileV0_fails_before_writing (env : Env)
    (csv_field : string -> string) (Join : list string -> string)
    (Dir : string -> string) (s0 : Sample) (rest : list Sample)
    (dir : string) (w : World) :
  let path := destPath Join dir s0 in
  let w1 := log (SysMkdirAll (Dir path)) w in
  let result := writeToFileV0 env csv_field Join Dir (s0 :: rest) dir w in
  mkdirall_fault env w (Dir path) <> None \/
  open_fault env w1 path <> None \/
  stat_fault env (snd (os_OpenFile env path w1)) path <> None ->
  fst result <> None /\
  forall p, content (snd result) p = content w p.
Proof.
  intros path w1 result Hfault. unfold result, writeToFileV0. fold path.
  unfold os_MkdirAll. fold w1.
  destruct (mkdirall_fault env w (Dir path)) as [[at_dir e]|];
    [split; [discriminate|reflexivity]|].
  destruct Hfault as [H|Hfault]; [congruence|].
  pose proof (os_OpenFile_content env path) as Hc2.
  destruct (open_fault env w1 path) as [e|] eqn:Ho.
  { unfold os_OpenFile. rewrite Ho. split; [discriminate|reflexivity]. }
  destruct Hfault as [H|Hs]; [congruence|].
  assert (E2 : fst (os_OpenFile env path w1) = None).
  { unfold os_OpenFile. rewrite Ho. destruct (files w1 !! path); reflexivity. }
  specialize (fun p => Hc2 p w1).
  destruct (os_OpenFile env path w1) as [o w2]. cbn [fst snd] in *. subst o.
  unfold file_Stat. destruct (stat_fault env w2 path); [|congruence].
  split; [discriminate|]. intros p. cbn [snd]. apply Hc2.
Qed.

Lemma writeToFileV0_fails_before_writing_witness :
  content
    (snd (writeToFileV0
            (mkEnv (fun _ _ => None) (fun _ _ => Some EACCES)
                   (fun _ _ => None) (fun _ _ _ => None))
            Csv.field Path.Join Path.Dir [Ex.rec0] "data"
            (mkWorld {[ Ex.file00 := "old"%string ]} [])))
    Ex.file00
  = "old"%string.
Proof.
  destruct (writeToFileV0_fails_before_writing
              (mkEnv (fun _ _ => None) (fun _ _ => Some EACCES)
                     (fun _ _ => None) (fun _ _ _ => None))
              Csv.field Path.Join Path.Dir Ex.rec0 [] "data"
              (mkWorld {[ Ex.file00 := "old"%string ]} [])) as [_ H].
  - right. left. discriminate.
  - rewrite H. unfold content. cbn [files].
    rewrite lookup_singleton_eq. reflexivity.
Defined.

Lemma csv_rows_app (csv_field : string -> string) (A B : list Sample) :
  csv_rows csv_field (A ++ B)
  = (csv_rows csv_field A ++ csv_rows csv_field B)%string.
Proof.
  induction A as [|a A IH]; [reflexivity|].
  change (csv_rows csv_field ((a :: A) ++ B))
    with (csv_record csv_field (row a) ++ csv_rows csv_field (A ++ B))%string.
  change (csv_rows csv_field (a :: A))
    with (csv_record csv_field (row a) ++ csv_rows csv_field A)%string.
  rewrite IH, Str.app_assoc. reflexivity.
Qed.

(** X12.  When no system call fails, writing a batch in two calls leaves
    the same files as writing it in one: if the second part goes to the
    path of the first, the file receives one header row at most and the
    rows of both parts in order. *)
Theorem writeToFileV0_split (env : Env) (csv_field : string -> string)
    (Join : list string -> string) (Dir : string -> string)
    (a0 : Sample) (A : list Sample) (b0 : Sample) (B : list Sample)
    (dir : string) (w : World) :
  let path := destPath Join dir a0 in
  let append := writeToFileV0 env csv_field Join Dir in
  no_fault_at env (Dir path) path ->
  destPath Join dir b0 = path ->
  exists w1 w2 w12,
    append (a0 :: A) dir w = (None, w1) /\
    append (b0 :: B) dir w1 = (None, w2) /\
    append ((a0 :: A) ++ b0 :: B) dir w = (None, w12) /\
    files w2 = files w12.
Proof.
  intros path append Hnf Hsame.
  destruct (writeToFileV0_ok env csv_field Join Dir a0 A dir w Hnf)
    as (w1 & E1 & Hf1 & Hx1 & _).
  assert (Hnf2 : no_fault_at env (Dir (destPath Join dir b0))
                   (destPath Join dir b0)) by (rewrite Hsame; exact Hnf).
  destruct (writeToFileV0_ok env csv_field Join Dir b0 B dir w1 Hnf2)
    as (w2 & E2 & Hf2 & Hx2 & _).
  destruct (writeToFileV0_ok env csv_field Join Dir a0 (A ++ b0 :: B) dir w Hnf)
    as (w12 & E12 & Hf12 & Hx12 & _).
  rewrite Hsame in Hf2, Hx2. fold path in Hf1, Hx1, Hf2, Hx2, Hf12, Hx12.
  exists w1, w2, w12. split; [exact E1|]. split; [exact E2|].
  split; [exact E12|].
  apply map_eq. intros p. destruct (decide (p = path)) as [->|Hp].
  - rewrite Hf2, Hf12. f_equal.
    assert (Hc1 : content w1 path
                  = (content w path ++ header_if_empty csv_field (content w path) a0
                     ++ csv_rows csv_field (a0 :: A))%string)
      by (unfold content at 1; rewrite Hf1; reflexivity).
    change (a0 :: A ++ b0 :: B) with ((a0 :: A) ++ b0 :: B).
    rewrite csv_rows_app, Hc1.
    assert (Hne : header_if_empty csv_field
                    (content w path
                     ++ header_if_empty csv_field (content w path) a0
                     ++ csv_rows csv_field (a0 :: A))%string b0
                  = EmptyString).
    { unfold header_if_empty. rewrite !Str.length_app.
      destruct (String.length (content w path)) eqn:E0; [|reflexivity].
      cbn [Nat.eqb Nat.add].
      destruct (String.length (csv_record csv_field (header a0))) eqn:E;
        [apply csv_record_nonempty in E; contradiction|reflexivity]. }
    rewrite Hne, Str.app_nil_l, !Str.app_assoc. reflexivity.
  - rewrite Hx2, Hx1, Hx12 by exact Hp. reflexivity.
Qed.

Lemma writeToFileV0_split_witness :
  exists w1 w2 w12,
    writeToFileV0 no_faults Csv.field Path.Join Path.Dir
      [Ex.rec0] "data" empty_world = (None, w1) /\
    writeToFileV0 no_faults Csv.field Path.Join Path.Dir
      [Ex.rec1] "data" w1 = (None, w2) /\
    writeToFileV0 no_faults Csv.field Path.Join Path.Dir
      [Ex.rec0; Ex.rec1] "data" empty_world = (None, w12) /\
    files w2 = files w12.
Proof.
  apply (writeToFileV0_split no_faults Csv.field Path.Join Path.Dir
           Ex.rec0 [] Ex.rec1 [] "data" empty_world).
  - apply no_faults_at.
  - reflexivity.
Defined.

(** X13.  When [MkdirAll], [OpenFile] and [Stat] succeed and the header
    row and the rows of the batch take no more than the 4096 bytes of the
    buffer, the call returns [nil] in every environment: what happens to
    the bytes, written by the final [Flush] alone, has no influence on the
    result. *)
Theorem writeToFileV0_small_batch_returns_nil (env : Env)
    (csv_field : string -> string) (Join : list string -> string)
    (Dir : string -> string) (s0 : Sample) (rest : list Sample)
    (dir : string) (w : World) :
  let path := destPath Join dir s0 in
  let w1 := log (SysMkdirAll (Dir path)) w in
  mkdirall_fault env w (Dir path) = None ->
  open_fault env w1 path = None ->
  stat_fault env (snd (os_OpenFile env path w1)) path = None ->
  (String.length (csv_record csv_field (header s0)
                  ++ csv_rows csv_field (s0 :: rest))
   <= defaultBufSize)%nat ->
  fst (writeToFileV0 env csv_field Join Dir (s0 :: rest) dir w) = None.
Proof.
  intros path w1 Hm Ho Hs Hlen.
  rewrite writeToFileV0_buffered; try assumption; [reflexivity|].
  rewrite Str.length_app in *. unfold header_if_empty.
  destruct (String.length (content w (destPath Join dir s0)) =? 0)%nat;
    [exact Hlen|]. cbn [String.length Nat.add]. lia.
Qed.

Lemma writeToFileV0_small_batch_returns_nil_witness :
  fst (writeToFileV0 disk_full Csv.field Path.Join Path.Dir
         [Ex.late0; Ex.late1] "data" empty_world) = None.
Proof.
  apply (writeToFileV0_small_batch_returns_nil disk_full Csv.field Path.Join
           Path.Dir Ex.late0 [Ex.late1] "data" empty_world);
    try reflexivity.
  apply Nat.leb_le. vm_compute. reflexivity.
Defined.

(** * The handler *)

(** X14.  The handler panics exactly when [ioutil.ReadAll] fails or when
    the body is not empty and [decodeV0] panics on it; a panic leaves the
    file system as it was and nothing is logged as a write error.  In
    every other case the reply is [!\n]. *)
Theorem post_v0_data_reply (env : Env) (csv_field : string -> string)
    (Join : list string -> string) (Dir : string -> string)
    (DataDir : string) (req_body : option (list byte)) (w : World) :
  let h := post_v0_data env csv_field Join Dir DataDir req_body w in
  (reply h = inl PanicReadAll <-> req_body = None) /\
  (forall q, reply h = inl (PanicDecode q) <->
             exists body, req_body = Some body /\ body <> [] /\
                          decodeV0 body = Panicked q) /\
  (forall r, reply h = inr r -> r = bang) /\
  (forall p, reply h = inl p -> after h = w /\ logged h = None).
Proof.
  intros h. unfold h, post_v0_data.
  destruct req_body as [body|]; cbn [reply after logged].
  - destruct body as [|b body]; cbn [length Nat.eqb reply after logged].
    + split; [split; discriminate|]. split; [|split].
      * intros q. split; [discriminate|].
        intros (body & Hb & Hne & _). injection Hb as <-. contradiction.
      * intros r H. congruence.
      * discriminate.
    + destruct (decodeV0 (b :: body)) as [samples|q0] eqn:Hd.
      * destruct (writeToFileV0 env csv_field Join Dir samples DataDir w)
          as [err w'].
        cbn [reply after logged].
        split; [split; discriminate|]. split; [|split].
        -- intros q. split; [discriminate|].
           intros (body' & Hb & _ & Hp). injection Hb as <-. congruence.
        -- intros r H. congruence.
        -- discriminate.
      * cbn [reply after logged].
        split; [split; discriminate|]. split; [|split].
        -- intros q. split.
           ++ intros H. injection H as <-. exists (b :: body).
              split; [reflexivity|]. split; [discriminate|exact Hd].
           ++ intros (body' & Hb & _ & Hp). injection Hb as <-. congruence.
        -- discriminate.
        -- auto.
  - split; [split; reflexivity|]. split; [|split].
    + intros q. split; [discriminate|]. intros (body & Hb & _). discriminate.
    + discriminate.
    + auto.
Qed.

Lemma post_v0_data_reply_witness :
  after (post_v0_data no_faults Csv.field Path.Join Path.Dir "data"
           (Some Ex.minus_one) empty_world) = empty_world.
Proof.
  destruct (post_v0_data_reply no_faults Csv.field Path.Join Path.Dir "data"
              (Some Ex.minus_one) empty_world) as (_ & _ & _ & H).
  apply (H (PanicDecode PanicMakeslice)). vm_compute. reflexivity.
Defined.

(** X15.  The reply depends on the request body alone: neither the
    environment, nor the state of the files, nor the data directory, and
    so no failure of the writer, changes what the client receives. *)
Theorem post_v0_data_reply_hides_storage (env env' : Env)
    (csv_field csv_field' : string -> string)
    (Join Join' : list string -> string) (Dir Dir' : string -> string)
    (DataDir DataDir' : string) (req_body : option (list byte))
    (w w' : World) :
  reply (post_v0_data env csv_field Join Dir DataDir req_body w)
  = reply (post_v0_data env' csv_field' Join' Dir' DataDir' req_body w').
Proof.
  unfold post_v0_data. destruct req_body as [body|]; [|reflexivity].
  destruct (length body =? 0)%nat; [reflexivity|].
  destruct (decodeV0 body) as [samples|q]; [|reflexivity].
  destruct (writeToFileV0 env csv_field Join Dir samples DataDir w).
  destruct (writeToFileV0 env' csv_field' Join' Dir' samples DataDir' w').
  reflexivity.
Qed.

(** X16.  A body that declares no sample (a complete fixed part with a
    number of samples of 0) is answered with [!\n] without any access to
    the file system, like the empty body. *)
Theorem post_v0_data_no_samples (env : Env) (csv_field : string -> string)
    (Join : list string -> string) (Dir : string -> string)
    (DataDir : string) (body : list byte) (w : World) :
  body = [] \/ ((Hdr.size <= length body)%nat /\ Hdr.nsamp body = 0) ->
  post_v0_data env csv_field Join Dir DataDir (Some body) w
  = mkHandled (inr bang) None w.
Proof.
  intros [->|[H33 HN]]; [reflexivity|].
  unfold post_v0_data.
  destruct (length body =? 0)%nat; [reflexivity|].
  assert (Hd : decodeV0 body = Ok []).
  { rewrite decodeV0_ok; rewrite HN; [reflexivity|lia|].
    change (Z.to_nat 0) with 0%nat. lia. }
  rewrite Hd. reflexivity.
Qed.

Lemma post_v0_data_no_samples_witness :
  post_v0_data disk_full Csv.field Path.Join Path.Dir "data"
    (Some (take 30 Ex.two_by_two ++ [x00; x00; x02])) empty_world
  = mkHandled (inr bang) None empty_world.
Proof.
  apply (post_v0_data_no_samples disk_full Csv.field Path.Join Path.Dir "data"
           (take 30 Ex.two_by_two ++ [x00; x00; x02]) empty_world).
  right. split; [vm_compute; lia|vm_compute; reflexivity].
Defined.

(** X17.  A body that decodes to at least one sample, handled while no
    system call on the file of its first sample fails, is answered with
    [!\n], logs no error, and leaves that file with its former content,
    the header row if it was empty, and one row per declared sample; no
    other file changes. *)
Theorem post_v0_data_stores (env : Env) (csv_field : string -> string)
    (Join : list string -> string) (Dir : string -> string)
    (DataDir : string) (body : list byte) (w : World) :
  let first := Hdr.sample body 0 in
  let path := destPath Join DataDir first in
  let batch := map (Hdr.sample body) (seq 0 (Z.to_nat (Hdr.nsamp body))) in
  let h := post_v0_data env csv_field Join Dir DataDir (Some body) w in
  0 < Hdr.nsamp body ->
  (Hdr.size + 2 * Z.to_nat (Hdr.nmeas body) * Z.to_nat (Hdr.nsamp body)
   <= length body)%nat ->
  no_fault_at env (Dir path) path ->
  reply h = inr bang /\
  logged h = None /\
  files (after h) !! path
  = Some (content w path ++ header_if_empty csv_field (content w path) first
          ++ csv_rows csv_field batch)%string /\
  (forall p, p <> path -> files (after h) !! p = files w !! p).
Proof.
  intros first path batch h HN Hlen Hnf. unfold h, post_v0_data.
  assert (Hnz : (length body =? 0)%nat = false)
    by (apply Nat.eqb_neq; unfold Hdr.size in Hlen; lia).
  rewrite Hnz, decodeV0_ok by (assumption || lia).
  fold batch.
  assert (Eb : batch = first :: map (Hdr.sample body)
                                   (seq 1 (Z.to_nat (Hdr.nsamp body) - 1))).
  { unfold batch, first.
    destruct (Z.to_nat (Hdr.nsamp body)) as [|n] eqn:E; [lia|].
    replace (S n - 1)%nat with n by lia. reflexivity. }
  rewrite Eb.
  destruct (writeToFileV0_ok env csv_field Join Dir first
              (map (Hdr.sample body) (seq 1 (Z.to_nat (Hdr.nsamp body) - 1)))
              DataDir w Hnf)
    as (w' & -> & Hf & Hx & _).
  cbn [reply logged after]. auto.
Qed.

Lemma post_v0_data_stores_witness :
  files (after (post_v0_data no_faults Csv.field Path.Join Path.Dir "data"
                  (Some Ex.two_by_two) empty_world)) !! Ex.file00
  = Some (csv_record Csv.field (header Ex.rec0)
          ++ csv_rows Csv.field [Ex.rec0; Ex.rec1])%string.
Proof.
  destruct (post_v0_data_stores no_faults Csv.field Path.Join Path.Dir "data"
              Ex.two_by_two empty_world) as (_ & _ & H & _).
  - vm_compute. reflexivity.
  - vm_compute. lia.
  - apply no_faults_at.
  - etransitivity; [exact H|]. vm_compute. reflexivity.
Defined.
